(** * update-models.py: the manifest generator, embedded and verified

    The script scans [<script_dir>/src/data/models] for files matching
    [*.csv], sorts their names and writes them as a JSON array to
    [models.json] in that directory.

    Python values are modelled as follows.
    - [str]: a sequence of Unicode code points, [list N].
    - [bytes] (file contents): a sequence of octets, [list N] below 256.
    - the filesystem: an association list from directory paths to what
      is found there, a directory being the list of its entries in the
      order in which [os.scandir] reports them.
    - effects ([print], the filesystem, exceptions): a state-and-error
      monad over [world].

    Library functions ([os.path], [glob], [fnmatch], [list.sort], [json])
    are transcribed from their CPython implementations, restricted to the
    arguments the script passes them.  The platform is POSIX: paths are
    separated by a slash, [fnmatch] is case-sensitive and text files keep
    their line feeds.  The directory of the script is taken to hold none
    of the characters that [glob] expands, so that only the last
    component of the pattern is one.  Failures of the operating system
    other than a missing directory, a path that is not a directory and a
    directory in the place of the file to write are not modelled. *)

From Stdlib Require Import List NArith Lia Bool String Ascii.
From Stdlib Require Import Permutation Sorted.
Import ListNotations.

Set Implicit Arguments.

(* ================================================================== *)
(** ** Python strings *)

Module PyStr.

Definition char := N.
Definition str := list char.

(** A literal of the source, read off its ASCII text. *)
Definition lit (s : string) : str :=
  map N_of_ascii (list_ascii_of_string s).

(** [a == b] on [str]. *)
Fixpoint str_eqb (a b : str) : bool :=
  match a, b with
  | [], [] => true
  | x :: a', y :: b' => N.eqb x y && str_eqb a' b'
  | _, _ => false
  end.

(** Three-way comparison of [str]: the first differing code point decides,
    and a proper prefix is smaller (CPython [unicode_compare]). *)
Fixpoint str_compare (a b : str) : comparison :=
  match a, b with
  | [], [] => Eq
  | [], _ :: _ => Lt
  | _ :: _, [] => Gt
  | x :: a', y :: b' =>
      match N.compare x y with
      | Eq => str_compare a' b'
      | c => c
      end
  end.

(** [a < b] on [str]. *)
Definition str_ltb (a b : str) : bool :=
  match str_compare a b with Lt => true | _ => false end.

(** [s.startswith(c)] and [s.endswith(c)] for a one-character [c]. *)
Definition startswith_char (c : char) (s : str) : bool :=
  match s with x :: _ => N.eqb x c | [] => false end.

Definition endswith_char (c : char) (s : str) : bool :=
  startswith_char c (rev s).

Definition is_empty (s : str) : bool :=
  match s with [] => true | _ :: _ => false end.

(** [str(n)] for a non-negative integer. *)
Fixpoint uint_to_str (u : Decimal.uint) : str :=
  match u with
  | Decimal.Nil => []
  | Decimal.D0 u => 48%N :: uint_to_str u
  | Decimal.D1 u => 49%N :: uint_to_str u
  | Decimal.D2 u => 50%N :: uint_to_str u
  | Decimal.D3 u => 51%N :: uint_to_str u
  | Decimal.D4 u => 52%N :: uint_to_str u
  | Decimal.D5 u => 53%N :: uint_to_str u
  | Decimal.D6 u => 54%N :: uint_to_str u
  | Decimal.D7 u => 55%N :: uint_to_str u
  | Decimal.D8 u => 56%N :: uint_to_str u
  | Decimal.D9 u => 57%N :: uint_to_str u
  end.

Definition str_of_nat (n : nat) : str := uint_to_str (Nat.to_uint n).

End PyStr.
Import PyStr.

(* ================================================================== *)
(** ** posixpath *)

Module PosixPath.

(** [sep = '/'] *)
Definition sep : char := 47%N.

(** One round of the loop of [posixpath.join]:
    [if b.startswith(sep): path = b
     elif not path or path.endswith(sep): path += b
     else: path += sep + b] *)
Definition join_step (path b : str) : str :=
  if startswith_char sep b then b
  else if is_empty path || endswith_char sep path then path ++ b
  else path ++ sep :: b.

(** [os.path.join(a, *p)] *)
Definition join (a : str) (p : list str) : str := fold_left join_step p a.

(** [p.rfind(c) + 1]: one past the last occurrence of [c], 0 without one. *)
Fixpoint rfind_succ (c : char) (p : str) : nat :=
  match p with
  | [] => 0
  | x :: p' =>
      match rfind_succ c p' with
      | S k => S (S k)
      | O => if N.eqb x c then 1 else 0
      end
  end.

(** [os.path.basename(p)]: [i = p.rfind(sep) + 1; return p[i:]] *)
Definition basename (p : str) : str := skipn (rfind_succ sep p) p.

(** [head.rstrip(sep)] *)
Fixpoint rstrip_sep (h : str) : str :=
  match h with
  | [] => []
  | x :: h' =>
      match rstrip_sep h' with
      | [] => if N.eqb x sep then [] else [x]
      | r => x :: r
      end
  end.

(** [os.path.split(p)]:
    [i = p.rfind(sep) + 1
     head, tail = p[:i], p[i:]
     if head and head != sep*len(head): head = head.rstrip(sep)] *)
Definition split (p : str) : str * str :=
  let i := rfind_succ sep p in
  let head := firstn i p in
  let tail := skipn i p in
  (if negb (is_empty head) && negb (forallb (N.eqb sep) head)
   then rstrip_sep head else head,
   tail).

End PosixPath.

(* ================================================================== *)
(** ** fnmatch and the directory scan of glob *)

Module Fnmatch.

Definition star : char := 42%N.
Definition qmark : char := 63%N.
Definition dot : char := 46%N.

(** [fnmatch.fnmatchcase(name, pat)] for patterns built from literal
    characters, [*] (any run of characters, possibly empty) and [?] (any
    one character); the pattern is anchored at both ends.  The script's
    pattern [*.csv] has no bracket expression, which is the one form
    left out. *)
Fixpoint fnmatchcase_pat (pat : str) : str -> bool :=
  match pat with
  | [] => fun name => is_empty name
  | p :: pat' =>
      if N.eqb p star then
        fix any_run (name : str) : bool :=
          fnmatchcase_pat pat' name
          || match name with
             | [] => false
             | _ :: name' => any_run name'
             end
      else
        fun name =>
          match name with
          | [] => false
          | x :: name' =>
              (N.eqb p qmark || N.eqb p x) && fnmatchcase_pat pat' name'
          end
  end.

Definition fnmatchcase (name pat : str) : bool := fnmatchcase_pat pat name.

(** [fnmatch.filter(names, pat)]; [os.path.normcase] is the identity on
    POSIX, so matching is case-sensitive. *)
Definition filter (names : list str) (pat : str) : list str :=
  List.filter (fun name => fnmatchcase name pat) names.

(** [glob._ishidden(path)]: [path[0] == '.'] *)
Definition ishidden (path : str) : bool := startswith_char dot path.

(** [glob._glob1(dirname, pattern, ..., include_hidden=False)] applied to
    the listing [names] of [dirname]:
    [if not _ishidden(pattern): names = (x for x in names if not _ishidden(x))
     return fnmatch.filter(names, pattern)] *)
Definition glob1 (names : list str) (pattern : str) : list str :=
  let names :=
    if ishidden pattern then names
    else List.filter (fun x => negb (ishidden x)) names in
  filter names pattern.

End Fnmatch.

(* ================================================================== *)
(** ** list.sort *)

Module PyList.

(** [list.sort()] on a list of [str]: a stable sort that compares with
    [<] only.  Each element is placed in front of the first element of
    the already sorted remainder that is not smaller than it. *)
Fixpoint insert (x : str) (l : list str) : list str :=
  match l with
  | [] => [x]
  | y :: l' => if str_ltb y x then y :: insert x l' else x :: y :: l'
  end.

Definition sort (l : list str) : list str := fold_right insert [] l.

End PyList.

(* ================================================================== *)
(** ** json.dump(obj, fp, indent=2) for a list of str *)

Module Json.

(** One lower-case hexadecimal digit, and ['{0:04x}'.format(n)] for
    [n < 0x10000]. *)
Definition hex_digit (d : N) : char :=
  if N.ltb d 10 then (48 + d)%N else (87 + d)%N.

Definition hex4 (n : N) : str :=
  [hex_digit (N.land (N.shiftr n 12) 15);
   hex_digit (N.land (N.shiftr n 8) 15);
   hex_digit (N.land (N.shiftr n 4) 15);
   hex_digit (N.land n 15)].

(** ['\\u{0:04x}'.format(n)] *)
Definition u_escape (n : N) : str := 92%N :: 117%N :: hex4 n.

(** The replacement of one character in
    [json.encoder.py_encode_basestring_ascii]: the short escapes of
    [ESCAPE_DCT], printable ASCII unchanged (the pattern [ESCAPE_ASCII]
    matches the backslash, the double quote and whatever lies outside
    the range from space to tilde), and a [\uXXXX] escape, or a surrogate
    pair of them, for everything else. *)
Definition escape_char (c : char) : str :=
  if N.eqb c 92 then [92; 92]%N
  else if N.eqb c 34 then [92; 34]%N
  else if N.eqb c 8 then [92; 98]%N
  else if N.eqb c 12 then [92; 102]%N
  else if N.eqb c 10 then [92; 110]%N
  else if N.eqb c 13 then [92; 114]%N
  else if N.eqb c 9 then [92; 116]%N
  else if N.leb 32 c && N.leb c 126 then [c]
  else if N.ltb c 65536 then u_escape c
  else
    let n := (c - 65536)%N in
    let s1 := N.lor 55296 (N.land (N.shiftr n 10) 1023) in
    let s2 := N.lor 56320 (N.land n 1023) in
    u_escape s1 ++ u_escape s2.

(** [encode_basestring_ascii(s)]: the replacements of the characters of
    [s] between two double quotes. *)
Definition encode_basestring_ascii (s : str) : str :=
  34%N :: flat_map escape_char s ++ [34%N].

(** [newline_indent = '\n' + ' ' * 2] at nesting level 1, and
    [separator = ',' + newline_indent]. *)
Definition newline_indent : str := [10; 32; 32]%N.
Definition separator : str := 44%N :: newline_indent.

(** The chunks after the first: [buf = separator; yield buf + _encoder(value)] *)
Definition rest_chunks (l : list str) : list str :=
  map (fun value => separator ++ encode_basestring_ascii value) l.

(** [_iterencode_list(lst, 0)] of [json.encoder._make_iterencode] with
    [indent=2] on a list of [str]: the chunks that [json.dump] hands to
    [fp.write] one after the other. *)
Definition iterencode_list (lst : list str) : list str :=
  match lst with
  | [] => [lit "[]"]
  | value :: lst' =>
      ((91%N :: newline_indent) ++ encode_basestring_ascii value)
        :: rest_chunks lst' ++ [[10%N]; [93%N]]
  end.

End Json.

(* ================================================================== *)
(** ** The process environment: filesystem, console, exceptions *)

(** Association lists keyed by [str]: the first binding of a key counts;
    [set] replaces it in place and adds a new key at the end. *)
Module Assoc.
Section Assoc.
Variable V : Type.

Fixpoint lookup (key : str) (l : list (str * V)) : option V :=
  match l with
  | [] => None
  | (k, v) :: l' => if str_eqb k key then Some v else lookup key l'
  end.

Fixpoint set (key : str) (v : V) (l : list (str * V)) : list (str * V) :=
  match l with
  | [] => [(key, v)]
  | (k, v') :: l' =>
      if str_eqb k key then (k, v) :: l' else (k, v') :: set key v l'
  end.
End Assoc.
End Assoc.

(** An entry of a directory: a regular file with its bytes, or a
    subdirectory. *)
Inductive entry : Type :=
| RegFile (data : list N)
| SubDir.

(** What the path of a directory of interest resolves to: something that
    is not a directory, or a directory with its entries in the order in
    which [os.scandir] reports them. *)
Inductive node : Type :=
| NonDir
| Directory (entries : list (str * entry)).

(** The world the script runs in.
    - [script_dir] is the value of
      [os.path.dirname(os.path.abspath(__file__))];
    - [encoding] is the text encoding [open(path, 'w')] picks up from the
      locale;
    - [fs] maps the paths that exist to what they resolve to; a regular
      file is reached through the directory that holds it;
    - [stdout] collects the arguments of the calls of [print], oldest
      first. *)
Record world : Type := mkWorld {
  script_dir : str;
  encoding : str -> list N;
  fs : list (str * node);
  stdout : list str
}.

Definition resolve (path : str) (w : world) : option node :=
  Assoc.lookup path (fs w).

Inductive exn : Type :=
| FileNotFoundError
| NotADirectoryError
| IsADirectoryError.

Inductive result (A : Type) : Type :=
| Ok (a : A)
| Raise (e : exn).
Arguments Ok {A} a.
Arguments Raise {A} e.

(** Programs: they read and change the world and return or raise. *)
Definition M (A : Type) : Type := world -> result A * world.

Definition ret {A} (a : A) : M A := fun w => (Ok a, w).

Definition bind {A B} (m : M A) (k : A -> M B) : M B :=
  fun w =>
    match m w with
    | (Ok a, w') => k a w'
    | (Raise e, w') => (Raise e, w')
    end.

Declare Scope py_scope.
Delimit Scope py_scope with py.
Notation "x <- m ;; k" := (bind m (fun x => k))
  (at level 61, m at next level, right associativity) : py_scope.
Notation "m ;; k" := (bind m (fun _ => k))
  (at level 61, right associativity) : py_scope.
Open Scope py_scope.

(** [for x in l: body(x)] *)
Fixpoint for_each {A} (l : list A) (body : A -> M unit) : M unit :=
  match l with
  | [] => ret tt
  | x :: l' => body x ;; for_each l' body
  end.

Module Os.

Definition get_script_dir : M str := fun w => (Ok (script_dir w), w).

(** [print(s)], on a console whose encoding takes every string: a
    console that cannot encode a line makes [print] raise, which is not
    modelled. *)
Definition print (s : str) : M unit :=
  fun w => (Ok tt, mkWorld (script_dir w) (encoding w) (fs w) (stdout w ++ [s])).

(** [os.path.exists(path)] *)
Definition path_exists (path : str) : M bool :=
  fun w => (Ok (match resolve path w with None => false | Some _ => true end), w).

(** [os.scandir(dirname)] as [glob._listdir] uses it: the names of the
    entries, and nothing when [dirname] cannot be listed. *)
Definition listdir (dirname : str) (w : world) : list str :=
  match resolve dirname w with
  | Some (Directory entries) => map fst entries
  | _ => []
  end.

(** [glob.glob(pathname)] for a [pathname] whose last component is a
    pattern and whose directory part is taken literally:
    [dirname, basename = os.path.split(pathname)
     for name in _glob1(dirname, basename, ...):
         yield os.path.join(dirname, name)]
    This is what [glob.glob] does when [has_magic(dirname)] is false.  A
    directory part with a star, a question mark or an opening bracket is
    expanded by [glob.glob] as well; the script does not escape it, and
    the statements about which names a run lists carry the absence of
    these characters from the directory of the script as a hypothesis. *)
Definition glob (pathname : str) : M (list str) :=
  fun w =>
    let (dirname, basename) := PosixPath.split pathname in
    (Ok (map (fun name => PosixPath.join dirname [name])
             (Fnmatch.glob1 (listdir dirname w) basename)),
     w).

Definition set_dir (dirname : str) (entries : list (str * entry)) (w : world)
  : world :=
  mkWorld (script_dir w) (encoding w)
          (Assoc.set dirname (Directory entries) (fs w))
          (stdout w).

(** [open(path, 'w')]: the file is created, or truncated when it is
    there; a directory in its place, or no directory to hold it, raises.
    Where a new entry shows up in the listing is up to the filesystem;
    the end of the list stands for any place, and no statement below
    says where it is. *)
Definition open_w (path : str) : M unit :=
  fun w =>
    let (dirname, name) := PosixPath.split path in
    match resolve dirname w with
    | None => (Raise FileNotFoundError, w)
    | Some NonDir => (Raise NotADirectoryError, w)
    | Some (Directory entries) =>
        match Assoc.lookup name entries with
        | Some SubDir => (Raise IsADirectoryError, w)
        | _ => (Ok tt, set_dir dirname (Assoc.set name (RegFile []) entries) w)
        end
    end.

(** [f.write(text)] on the file opened at [path]: the encoded text is
    appended. *)
Definition write (path : str) (text : str) : M unit :=
  fun w =>
    let (dirname, name) := PosixPath.split path in
    match resolve dirname w with
    | Some (Directory entries) =>
        match Assoc.lookup name entries with
        | Some (RegFile data) =>
            (Ok tt,
             set_dir dirname
               (Assoc.set name (RegFile (data ++ encoding w text)) entries) w)
        | _ => (Raise FileNotFoundError, w)
        end
    | _ => (Raise FileNotFoundError, w)
    end.

End Os.

(* ================================================================== *)
(** ** The script *)

Definition models_json : str := lit "models.json".

(** [os.path.join(script_dir, 'src', 'data', 'models')] *)
Definition models_dir_of (script_dir : str) : str :=
  PosixPath.join script_dir [lit "src"; lit "data"; lit "models"].

(** The loop over the glob results:
    [for filepath in glob.glob(csv_pattern):
         filename = os.path.basename(filepath)
         if filename != 'models.json':
             csv_files.append(filename)] *)
Definition collect_csv_files (filepaths : list str) : list str :=
  fold_left
    (fun csv_files filepath =>
       let filename := PosixPath.basename filepath in
       if negb (str_eqb filename models_json)
       then csv_files ++ [filename]
       else csv_files)
    filepaths [].

(** [with open(json_file, 'w') as f: json.dump(csv_files, f, indent=2)] *)
Definition dump_to (json_file : str) (csv_files : list str) : M unit :=
  Os.open_w json_file ;;
  for_each (Json.iterencode_list csv_files) (Os.write json_file).

Definition update_models_json : M bool :=
  script_dir <- Os.get_script_dir ;;
  let models_dir := models_dir_of script_dir in
  exists_ <- Os.path_exists models_dir ;;
  if negb exists_ then
    Os.print (lit "Error: Models directory not found at " ++ models_dir) ;;
    ret false
  else
    Os.print (lit "Scanning for CSV files in " ++ models_dir ++ lit "...") ;;
    let csv_pattern := PosixPath.join models_dir [lit "*.csv"] in
    filepaths <- Os.glob csv_pattern ;;
    let csv_files := collect_csv_files filepaths in
    let csv_files := PyList.sort csv_files in
    let json_file := PosixPath.join models_dir [models_json] in
    dump_to json_file csv_files ;;
    Os.print (lit "Generated " ++ json_file ++ lit " with "
                ++ str_of_nat (List.length csv_files) ++ lit " CSV files:") ;;
    for_each csv_files (fun filename => Os.print (lit "  - " ++ filename)) ;;
    Os.print (10%N :: lit "Models.json has been updated! Your web app will now automatically detect all CSV files.") ;;
    ret true.

(** [if __name__ == '__main__': update_models_json()]: the value returned
    is dropped; the interpreter exits with status 0 when the call returns
    and with status 1 when an exception escapes. *)
Definition main : world -> N * world :=
  fun w =>
    match update_models_json w with
    | (Ok _, w') => (0%N, w')
    | (Raise _, w') => (1%N, w')
    end.

(* ================================================================== *)
(** ** Observing the manifest *)

(** The bytes of the regular file at [path], when there is one. *)
Definition read_file (path : str) (w : world) : option (list N) :=
  let (dirname, name) := PosixPath.split path in
  match resolve dirname w with
  | Some (Directory entries) =>
      match Assoc.lookup name entries with
      | Some (RegFile data) => Some data
      | _ => None
      end
  | _ => None
  end.

Definition models_dir (w : world) : str := models_dir_of (script_dir w).

Definition json_file (w : world) : str :=
  PosixPath.join (models_dir w) [models_json].

(** [os.path.join(models_dir, '*.csv')] *)
Definition csv_pattern (w : world) : str :=
  PosixPath.join (models_dir w) [lit "*.csv"].

Definition manifest_bytes (w : world) : option (list N) :=
  read_file (json_file w) w.

(** The names that a run on [w] serialises: the value of [csv_files]
    after [csv_files.sort()]. *)
Definition csv_files_of (w : world) : list str :=
  match Os.glob (csv_pattern w) w with
  | (Ok filepaths, _) => PyList.sort (collect_csv_files filepaths)
  | (Raise _, _) => []
  end.

(* ================================================================== *)
(** ** The vocabulary of the specification *)

Module Spec.

(** Exact lexicographic order by code point: at the first position where
    two names differ the smaller code point decides, and a proper prefix
    comes first. *)
Inductive lex_lt : str -> str -> Prop :=
| lex_lt_prefix : forall y b, lex_lt [] (y :: b)
| lex_lt_here : forall x y a b, (x < y)%N -> lex_lt (x :: a) (y :: b)
| lex_lt_later : forall x a b, lex_lt a b -> lex_lt (x :: a) (x :: b).

Definition lex_le (a b : str) : Prop := a = b \/ lex_lt a b.

(** A list in ascending order: each element is at most every later one. *)
Definition ascending (l : list str) : Prop := StronglySorted lex_le l.

(** [x] occurs before [y] in [l]. *)
Definition occurs_before (x y : str) (l : list str) : Prop :=
  exists l1 l2 l3, l = l1 ++ x :: l2 ++ y :: l3.

(** [name] ends with [suffix]. *)
Definition has_suffix (suffix name : str) : Prop :=
  exists prefix, name = prefix ++ suffix.

(** Whether a glob of [*.csv] lists [name]. *)
Definition csv_match (name : str) : bool :=
  negb (Fnmatch.ishidden name) && Fnmatch.fnmatchcase name (lit "*.csv").

(** The two pipelines compared by the redundancy of the exclusion. *)
Definition filter_only (names : list str) : list str :=
  List.filter csv_match names.

Definition filter_then_exclude (names : list str) : list str :=
  List.filter (fun name => negb (str_eqb name models_json))
              (List.filter csv_match names).

(** A JSON array pretty-printed with an indentation of 2: the empty
    array is a pair of brackets; otherwise the opening bracket, the
    items one per line behind two spaces with a comma after each but the
    last, and the closing bracket on a line of its own. *)
Fixpoint item_lines (items : list str) : str :=
  match items with
  | [] => []
  | [item] => [32; 32]%N ++ item ++ [10%N]
  | item :: items' => [32; 32]%N ++ item ++ [44; 10]%N ++ item_lines items'
  end.

Definition pretty_indent2 (items : list str) : str :=
  match items with
  | [] => [91; 93]%N
  | _ => [91; 10]%N ++ item_lines items ++ [93%N]
  end.

(** The UTF-8 encoding of a text. *)
Definition utf8_char (c : char) : list N :=
  if N.ltb c 128 then [c]
  else if N.ltb c 2048 then
    [N.lor 192 (N.shiftr c 6); N.lor 128 (N.land c 63)]
  else if N.ltb c 65536 then
    [N.lor 224 (N.shiftr c 12);
     N.lor 128 (N.land (N.shiftr c 6) 63);
     N.lor 128 (N.land c 63)]
  else
    [N.lor 240 (N.shiftr c 18);
     N.lor 128 (N.land (N.shiftr c 12) 63);
     N.lor 128 (N.land (N.shiftr c 6) 63);
     N.lor 128 (N.land c 63)].

Definition utf8_encode (text : str) : list N := flat_map utf8_char text.

Definition is_cont (b : N) : bool := N.leb 128 b && N.ltb b 192.

Definition cont (acc b : N) : N := N.lor (N.shiftl acc 6) (N.land b 63).

(** Decoding of UTF-8; ill-formed input has no decoding. *)
Fixpoint utf8_decode (bs : list N) : option str :=
  match bs with
  | [] => Some []
  | b0 :: bs1 =>
      if N.ltb b0 128 then option_map (cons b0) (utf8_decode bs1)
      else if N.leb 194 b0 && N.ltb b0 224 then
        match bs1 with
        | b1 :: bs2 =>
            if is_cont b1
            then option_map (cons (cont (N.land b0 31) b1)) (utf8_decode bs2)
            else None
        | _ => None
        end
      else if N.leb 224 b0 && N.ltb b0 240 then
        match bs1 with
        | b1 :: b2 :: bs3 =>
            let c := cont (cont (N.land b0 15) b1) b2 in
            if is_cont b1 && is_cont b2 && N.leb 2048 c
               && negb (N.leb 55296 c && N.leb c 57343)
            then option_map (cons c) (utf8_decode bs3)
            else None
        | _ => None
        end
      else if N.leb 240 b0 && N.ltb b0 245 then
        match bs1 with
        | b1 :: b2 :: b3 :: bs4 =>
            let c := cont (cont (cont (N.land b0 7) b1) b2) b3 in
            if is_cont b1 && is_cont b2 && is_cont b3
               && N.leb 65536 c && N.ltb c 1114112
            then option_map (cons c) (utf8_decode bs4)
            else None
        | _ => None
        end
      else None
  end.

(** A text of ASCII characters only. *)
Definition ascii_text (text : str) : Prop :=
  Forall (fun c => (c < 128)%N) text.

(** An encoding that agrees with ASCII on ASCII text, as the locale
    encodings of POSIX systems do (UTF-8, the ISO 8859 family, ...). *)
Definition ascii_compatible (encode : str -> list N) : Prop :=
  forall text, ascii_text text -> encode text = text.

(** *** Reading a manifest: a JSON array of strings *)

Inductive mode : Type :=
| Start                 (* before the opening bracket *)
| First                 (* after it: a string or the closing bracket *)
| Value                 (* after a comma: a string *)
| After                 (* after a string: a comma or the closing bracket *)
| Done                  (* after the closing bracket *)
| Fail
| InStr (acc : str) (hi : option N)
| InEsc (acc : str) (hi : option N)
| InHex (acc : str) (hi : option N) (todo : nat) (v : N).

Definition is_ws (c : char) : bool :=
  N.eqb c 32 || N.eqb c 9 || N.eqb c 10 || N.eqb c 13.

Definition hex_val (c : char) : option N :=
  if N.leb 48 c && N.leb c 57 then Some (c - 48)%N
  else if N.leb 97 c && N.leb c 102 then Some (c - 87)%N
  else if N.leb 65 c && N.leb c 70 then Some (c - 55)%N
  else None.

Definition is_high (v : N) : bool := N.leb 55296 v && N.leb v 56319.
Definition is_low (v : N) : bool := N.leb 56320 v && N.leb v 57343.

(** A high surrogate read from an escape waits in [hi] for a low one;
    when none follows it stands for itself. *)
Definition flush (acc : str) (hi : option N) : str :=
  match hi with
  | Some h => acc ++ [h]
  | None => acc
  end.

Definition simple_escape (c : char) : option char :=
  if N.eqb c 34 then Some 34%N
  else if N.eqb c 92 then Some 92%N
  else if N.eqb c 47 then Some 47%N
  else if N.eqb c 98 then Some 8%N
  else if N.eqb c 102 then Some 12%N
  else if N.eqb c 110 then Some 10%N
  else if N.eqb c 114 then Some 13%N
  else if N.eqb c 116 then Some 9%N
  else None.

(** The string state after an escape [\uXXXX] of value [v]. *)
Definition unicode_escape (acc : str) (hi : option N) (v : N) : mode :=
  match hi with
  | Some h =>
      if is_low v then
        InStr (acc ++ [65536 + N.lor (N.shiftl (h - 55296) 10) (v - 56320)]%N)
              None
      else if is_high v then InStr (acc ++ [h]) (Some v)
      else InStr (acc ++ [h; v]) None
  | None =>
      if is_high v then InStr acc (Some v) else InStr (acc ++ [v]) None
  end.

Definition step (st : mode * list str) (c : char) : mode * list str :=
  let (m, out) := st in
  match m with
  | Start =>
      if is_ws c then (Start, out)
      else if N.eqb c 91 then (First, out) else (Fail, out)
  | First =>
      if is_ws c then (First, out)
      else if N.eqb c 93 then (Done, out)
      else if N.eqb c 34 then (InStr [] None, out) else (Fail, out)
  | Value =>
      if is_ws c then (Value, out)
      else if N.eqb c 34 then (InStr [] None, out) else (Fail, out)
  | After =>
      if is_ws c then (After, out)
      else if N.eqb c 44 then (Value, out)
      else if N.eqb c 93 then (Done, out) else (Fail, out)
  | Done => if is_ws c then (Done, out) else (Fail, out)
  | Fail => (Fail, out)
  | InStr acc hi =>
      if N.eqb c 34 then (After, out ++ [flush acc hi])
      else if N.eqb c 92 then (InEsc acc hi, out)
      else if N.ltb c 32 then (Fail, out)
      else (InStr (flush acc hi ++ [c]) None, out)
  | InEsc acc hi =>
      if N.eqb c 117 then (InHex acc hi 4 0%N, out)
      else
        match simple_escape c with
        | Some x => (InStr (flush acc hi ++ [x]) None, out)
        | None => (Fail, out)
        end
  | InHex acc hi todo v =>
      match hex_val c with
      | None => (Fail, out)
      | Some d =>
          let v' := (v * 16 + d)%N in
          match todo with
          | 1 => (unicode_escape acc hi v', out)
          | S k => (InHex acc hi k v', out)
          | O => (Fail, out)
          end
      end
  end.

(** The array of strings that a JSON text denotes. *)
Definition json_loads (text : str) : option (list str) :=
  match fold_left step text (Start, []) with
  | (Done, out) => Some out
  | _ => None
  end.

(** The parsed content of the manifest in [w]. *)
Definition read_manifest (w : world) : option (list str) :=
  match manifest_bytes w with
  | Some bytes =>
      match utf8_decode bytes with
      | Some text => json_loads text
      | None => None
      end
  | None => None
  end.

(** File names as a directory can hold them and [os.fsdecode] returns
    them: not empty, without NUL and slash, made of code points below
    0x110000 that are not high surrogates. *)
Definition name_char_ok (c : char) : bool :=
  negb (N.eqb c 0) && negb (N.eqb c PosixPath.sep)
  && N.ltb c 1114112 && negb (is_high c).

Definition valid_name (name : str) : bool :=
  negb (is_empty name) && forallb name_char_ok name.

(** A directory listing: valid names, each once. *)
Definition wf_listing (names : list str) : Prop :=
  NoDup names /\ Forall (fun name => valid_name name = true) names.

End Spec.

(** A code point that a serialised string gives back on reading: in
    range, and not a high surrogate (which an escape would pair with a
    low one that follows). *)
Definition char_ok (c : char) : Prop :=
  (c < 1114112)%N /\ Spec.is_high c = false.

(** A string without a path separator. *)
Definition no_sep (s : str) : Prop := ~ In PosixPath.sep s.

(** ** The worlds a run ends in *)

(** [w] after some more lines went to the console. *)
Definition add_stdout (w : world) (lines : list str) : world :=
  mkWorld (script_dir w) (encoding w) (fs w) (stdout w ++ lines).

(** The bytes a run on [w] writes: the encoded chunks of the serialised
    [csv_files], one after the other. *)
Definition written_bytes (w : world) : list N :=
  flat_map (encoding w) (Json.iterencode_list (csv_files_of w)).

(** The console output of a run that finds the directory. *)
Definition scanning_line (w : world) : str :=
  lit "Scanning for CSV files in " ++ models_dir w ++ lit "...".

Definition report_lines (w : world) : list str :=
  [lit "Generated " ++ json_file w ++ lit " with "
     ++ str_of_nat (List.length (csv_files_of w)) ++ lit " CSV files:"]
  ++ map (fun filename => lit "  - " ++ filename) (csv_files_of w)
  ++ [10%N :: lit "Models.json has been updated! Your web app will now automatically detect all CSV files."].

Definition not_found_line (w : world) : str :=
  lit "Error: Models directory not found at " ++ models_dir w.

(** [w] after a run that wrote the manifest into the models directory,
    whose entries were [entries]. *)
Definition success_world (w : world) (entries : list (str * entry)) : world :=
  add_stdout
    (Os.set_dir (models_dir w)
       (Assoc.set models_json (RegFile (written_bytes w)) entries) w)
    (scanning_line w :: report_lines w).

(** Every run ends in one of four ways. *)
Inductive run_case (w : world) : result bool * world -> Prop :=
| case_not_found :
    resolve (models_dir w) w = None ->
    run_case w (Ok false, add_stdout w [not_found_line w])
| case_not_a_directory :
    resolve (models_dir w) w = Some NonDir ->
    run_case w (Raise NotADirectoryError, add_stdout w [scanning_line w])
| case_is_a_directory : forall entries,
    resolve (models_dir w) w = Some (Directory entries) ->
    Assoc.lookup models_json entries = Some SubDir ->
    run_case w (Raise IsADirectoryError, add_stdout w [scanning_line w])
| case_success : forall entries,
    resolve (models_dir w) w = Some (Directory entries) ->
    Assoc.lookup models_json entries <> Some SubDir ->
    run_case w (Ok true, success_world w entries).

(** ** Worlds and texts of the examples *)

Module Examples.

(** A JSON string literal of characters that need no escape. *)
Definition quoted (s : str) : str := 34%N :: s ++ [34%N].

Definition app_models_dir : str := lit "/app/src/data/models".

(** The script installed in [/app], a UTF-8 locale, an empty console,
    and the models directory holding [entries]. *)
Definition world_with (entries : list (str * entry)) : world :=
  mkWorld (lit "/app") Spec.utf8_encode
          [(app_models_dir, Directory entries)] [].

(** The same without a models directory. *)
Definition world_missing : world :=
  mkWorld (lit "/app") Spec.utf8_encode [] [].

Definition abc_dir : list (str * entry) :=
  [(lit "a.csv", RegFile (lit "x,y"));
   (lit "c.csv", RegFile []);
   (lit "b.csv", RegFile (lit "1,2"));
   (lit "models.json", RegFile (lit "stale"))].

Definition abc_names : list str :=
  [lit "a.csv"; lit "c.csv"; lit "b.csv"; lit "models.json"].

Definition abc_sorted : list str := [lit "a.csv"; lit "b.csv"; lit "c.csv"].

Definition only_manifest_dir : list (str * entry) :=
  [(lit "models.json", RegFile (lit "stale"))].

Definition hidden_dir : list (str * entry) :=
  [(lit ".hidden.csv", RegFile []); (lit "shown.csv", RegFile [])].

Definition case_dir : list (str * entry) :=
  [(lit "model1.csv", RegFile []); (lit "Model2.csv", RegFile [])].

(** A subdirectory sits where the manifest goes. *)
Definition squatted_dir : list (str * entry) :=
  [(lit "a.csv", RegFile []); (lit "models.json", SubDir)].

(** A name with a quote, an accented letter and a character beyond the
    basic plane. *)
Definition fancy_name : str := [34; 233; 128512]%N ++ lit ".csv".

Definition fancy_dir : list (str * entry) := [(fancy_name, RegFile [])].

Definition model1 : str := lit "model1.csv".
Definition model2 : str := lit "Model2.csv".
Definition hidden : str := lit ".hidden.csv".

(** The names of [abc_dir] in another order, the manifest gone and a
    file that is no CSV file added. *)
Definition abc_dir_changed : list (str * entry) :=
  [(lit "notes.txt", RegFile (lit "n"));
   (lit "b.csv", RegFile []);
   (lit "a.csv", RegFile []);
   (lit "c.csv", RegFile (lit "z"))].

End Examples.

(** The exit status reflects failure: it is not 0 exactly when the
    models directory is not found. *)
Definition exit_status_reflects_failure (w : world) : Prop :=
  fst (main w) <> 0%N <-> resolve (models_dir w) w = None.

(** All entries are regular files. *)
Definition only_files (entries : list (str * entry)) : Prop :=
  forall name e, In (name, e) entries -> exists data, e = RegFile data.

(** The place of the manifest is not taken by a subdirectory. *)
Definition manifest_free (entries : list (str * entry)) : Prop :=
  Assoc.lookup models_json entries <> Some SubDir.

(** ** Further vocabulary and example worlds *)

(** A byte of a text of printable ASCII and line feeds. *)
Definition printable_or_lf (b : N) : Prop :=
  b = 10%N \/ (32 <= b <= 126)%N.

(** A printable ASCII character. *)
Definition visible (b : N) : Prop := (32 <= b <= 126)%N.

(** The number of line feeds in a text. *)
Definition line_feeds (text : list N) : nat := count_occ N.eq_dec text 10%N.

Module MoreExamples.

(** Something that is not a directory sits at the path of the models
    directory. *)
Definition world_not_dir : world :=
  mkWorld (lit "/app") Spec.utf8_encode
          [(Examples.app_models_dir, NonDir)] [].

(** Regular files and a subdirectory, with suffixes in both cases. *)
Definition mixed_dir : list (str * entry) :=
  [(lit "data.csv", RegFile (lit "1"));
   (lit "DATA.CSV", RegFile []);
   (lit "archive.csv", SubDir);
   (lit "notes.txt", RegFile []);
   (lit ".hidden.csv", RegFile []);
   (lit "table.csv.bak", RegFile [])].


End MoreExamples.

(** ** Conditions named in the statements *)

Module Glob.

(** [glob.has_magic(s)]: whether [s] holds a star, a question mark or an
    opening bracket, the characters that [glob.glob] expands. *)
Definition has_magic (s : str) : bool :=
  existsb (fun c => N.eqb c 42 || N.eqb c 63 || N.eqb c 91) s.

End Glob.


(** In the models directory with these [entries], none of which ends in
    .csv, a run writes a manifest that parses to the empty array. *)
Definition empty_manifest_written (w : world) (entries : list (str * entry))
  : Prop :=
  resolve (models_dir w) w = Some (Directory entries) ->
  (forall name, In name (map fst entries) ->
                ~ Spec.has_suffix (lit ".csv") name) ->
  exists w',
    update_models_json w = (Ok true, w') /\ Spec.read_manifest w' = Some [].

(** A directory that holds nothing but a subdirectory called
    models.json. *)
Definition manifest_subdir_only : list (str * entry) :=
  [(lit "models.json", SubDir)].

(* ================================================================== *)
(** * Properties *)

(** ** Strings and their order *)

Lemma str_eqb_eq (a b : str) : str_eqb a b = true <-> a = b.
Proof.
  revert b; induction a as [|x a IH]; intros [|y b]; simpl;
    try (split; [discriminate | intros H; discriminate H]); [tauto|].
  rewrite andb_true_iff, N.eqb_eq, IH.
  split; [intros [-> ->]; reflexivity | intros H; inversion H; auto].
Qed.

Lemma str_eqb_refl (a : str) : str_eqb a a = true.
Proof. apply str_eqb_eq; reflexivity. Qed.

Lemma str_eqb_neq (a b : str) : str_eqb a b = false <-> a <> b.
Proof.
  rewrite <- str_eqb_eq. destruct (str_eqb a b); split; congruence.
Qed.

Lemma str_compare_eq (a b : str) : str_compare a b = Eq -> a = b.
Proof.
  revert b; induction a as [|x a IH]; intros [|y b]; simpl;
    try discriminate; [reflexivity|].
  destruct (N.compare_spec x y) as [->|?|?]; try discriminate.
  intros H; f_equal; auto.
Qed.

Lemma str_compare_refl (a : str) : str_compare a a = Eq.
Proof.
  induction a as [|x a IH]; simpl; [reflexivity|].
  rewrite N.compare_refl; exact IH.
Qed.

Lemma str_compare_antisym (a b : str) :
  str_compare b a = CompOpp (str_compare a b).
Proof.
  revert b; induction a as [|x a IH]; intros [|y b]; simpl; try reflexivity.
  rewrite (N.compare_antisym x y).
  destruct (N.compare x y); simpl; auto.
Qed.

(** Python's [<] on [str] is the lexicographic order by code point. *)
Lemma str_ltb_lex_lt (a b : str) : str_ltb a b = true <-> Spec.lex_lt a b.
Proof.
  unfold str_ltb. split.
  - revert b; induction a as [|x a IH]; intros [|y b]; simpl;
      try discriminate; [constructor|].
    destruct (N.compare_spec x y) as [->|Hlt|Hgt]; try discriminate.
    + intros H; apply Spec.lex_lt_later, IH, H.
    + intros _; apply Spec.lex_lt_here, Hlt.
  - induction 1 as [y b|x y a b Hlt|x a b _ IH]; simpl.
    + reflexivity.
    + apply N.compare_lt_iff in Hlt; rewrite Hlt; reflexivity.
    + rewrite N.compare_refl; exact IH.
Qed.

Lemma lex_lt_irrefl (a : str) : ~ Spec.lex_lt a a.
Proof.
  intros H; apply str_ltb_lex_lt in H; unfold str_ltb in H.
  rewrite str_compare_refl in H; discriminate.
Qed.

Lemma lex_lt_trans (a b c : str) :
  Spec.lex_lt a b -> Spec.lex_lt b c -> Spec.lex_lt a c.
Proof.
  intros Hab; revert c.
  induction Hab as [y b|x y a b Hlt|x a b _ IH]; intros c Hbc;
    inversion Hbc; subst.
  - constructor.
  - constructor.
  - apply Spec.lex_lt_here; lia.
  - apply Spec.lex_lt_here; assumption.
  - apply Spec.lex_lt_here; assumption.
  - apply Spec.lex_lt_later; auto.
Qed.

Lemma lex_lt_asym (a b : str) : Spec.lex_lt a b -> Spec.lex_lt b a -> False.
Proof. intros H1 H2; exact (lex_lt_irrefl (lex_lt_trans H1 H2)). Qed.

Lemma lex_le_trans (a b c : str) :
  Spec.lex_le a b -> Spec.lex_le b c -> Spec.lex_le a c.
Proof.
  intros [->|H1] [->|H2]; unfold Spec.lex_le; auto.
  right; eapply lex_lt_trans; eauto.
Qed.

Lemma lex_le_antisym (a b : str) :
  Spec.lex_le a b -> Spec.lex_le b a -> a = b.
Proof.
  intros [->|H1] [E|H2]; auto. exfalso; eapply lex_lt_asym; eauto.
Qed.

(** When [y < x] fails, [x] is at most [y]. *)
Lemma str_ltb_false_le (x y : str) : str_ltb y x = false -> Spec.lex_le x y.
Proof.
  unfold str_ltb; intros H.
  destruct (str_compare y x) eqn:E; try discriminate.
  - left; symmetry; apply str_compare_eq, E.
  - right; apply str_ltb_lex_lt; unfold str_ltb.
    rewrite str_compare_antisym, E; reflexivity.
Qed.

(** ** Sorted lists are determined by their elements *)

Section SortedUnique.
Variable A : Type.
Variable le : A -> A -> Prop.
Hypothesis le_antisym : forall x y, le x y -> le y x -> x = y.

Lemma sorted_head_least (x : A) (l : list A) :
  StronglySorted le (x :: l) -> forall y, In y l -> le x y.
Proof.
  intros H y Hy; inversion H as [|? ? _ Hall]; subst.
  rewrite Forall_forall in Hall; auto.
Qed.

Lemma sorted_perm_unique (l1 l2 : list A) :
  StronglySorted le l1 -> StronglySorted le l2 -> Permutation l1 l2 ->
  l1 = l2.
Proof.
  revert l2; induction l1 as [|x l1 IH]; intros l2 S1 S2 P.
  - apply Permutation_nil in P; auto.
  - destruct l2 as [|y l2].
    + apply Permutation_sym, Permutation_nil in P; discriminate.
    + assert (x = y) as ->.
      { assert (Hx : In x (y :: l2))
          by (eapply Permutation_in; [exact P | left; reflexivity]).
        assert (Hy : In y (x :: l1))
          by (eapply Permutation_in;
              [apply Permutation_sym; exact P | left; reflexivity]).
        destruct Hx as [->|Hx]; [reflexivity|].
        destruct Hy as [->|Hy]; [reflexivity|].
        apply le_antisym.
        - exact (sorted_head_least S1 _ Hy).
        - exact (sorted_head_least S2 _ Hx). }
      f_equal; apply IH.
      * inversion S1; assumption.
      * inversion S2; assumption.
      * eapply Permutation_cons_inv; exact P.
Qed.
End SortedUnique.

(** ** [list.sort] *)

Lemma insert_perm (x : str) (l : list str) :
  Permutation (PyList.insert x l) (x :: l).
Proof.
  induction l as [|y l IH]; simpl; [reflexivity|].
  destruct (str_ltb y x); [|reflexivity].
  rewrite IH; apply perm_swap.
Qed.

Lemma sort_perm (l : list str) : Permutation (PyList.sort l) l.
Proof.
  induction l as [|x l IH]; simpl; [constructor|].
  unfold PyList.sort in *; simpl.
  rewrite insert_perm; constructor; exact IH.
Qed.

Lemma insert_ascending (x : str) (l : list str) :
  Spec.ascending l -> Spec.ascending (PyList.insert x l).
Proof.
  unfold Spec.ascending.
  induction l as [|y l IH]; simpl; intros S.
  - repeat constructor.
  - destruct (str_ltb y x) eqn:E.
    + inversion S as [|? ? S' Hall]; subst.
      constructor; [auto|].
      rewrite Forall_forall in *; intros z Hz.
      apply (Permutation_in _ (insert_perm x l)) in Hz.
      destruct Hz as [<-|Hz]; [|auto].
      right; apply str_ltb_lex_lt, E.
    + apply str_ltb_false_le in E.
      constructor; [exact S|].
      constructor; [exact E|].
      inversion S as [|? ? _ Hall]; subst.
      rewrite Forall_forall in *; intros z Hz.
      eapply lex_le_trans; eauto.
Qed.

Lemma sort_ascending (l : list str) : Spec.ascending (PyList.sort l).
Proof.
  induction l as [|x l IH]; [constructor|].
  apply insert_ascending, IH.
Qed.

(** The result of sorting depends on the elements only, not on the
    order in which they come. *)
Lemma sort_perm_invariant (l1 l2 : list str) :
  Permutation l1 l2 -> PyList.sort l1 = PyList.sort l2.
Proof.
  intros P.
  apply (sorted_perm_unique lex_le_antisym);
    try apply sort_ascending.
  rewrite !sort_perm; exact P.
Qed.

Lemma sort_In (x : str) (l : list str) : In x (PyList.sort l) <-> In x l.
Proof.
  split; apply Permutation_in;
    [apply sort_perm | apply Permutation_sym, sort_perm].
Qed.

(** ** Paths *)

Lemma rfind_succ_no_sep (s : str) : no_sep s -> PosixPath.rfind_succ PosixPath.sep s = 0.
Proof.
  unfold no_sep; induction s as [|x s IH]; simpl; intros H; [reflexivity|].
  rewrite IH by tauto.
  destruct (N.eqb_spec x PosixPath.sep) as [->|_]; [tauto | reflexivity].
Qed.

Lemma rfind_succ_app_sep (d s : str) :
  no_sep s ->
  PosixPath.rfind_succ PosixPath.sep (d ++ PosixPath.sep :: s) = S (List.length d).
Proof.
  intros H; induction d as [|x d IH]; simpl.
  - rewrite rfind_succ_no_sep by assumption; reflexivity.
  - rewrite IH; reflexivity.
Qed.

Lemma no_sep_startswith (s : str) :
  no_sep s -> startswith_char PosixPath.sep s = false.
Proof.
  destruct s as [|x s]; simpl; intros H; [reflexivity|].
  apply N.eqb_neq; intros ->; apply H; left; reflexivity.
Qed.

Lemma endswith_char_snoc (c x : char) (d : str) :
  endswith_char c (d ++ [x]) = N.eqb x c.
Proof. unfold endswith_char; rewrite rev_app_distr; reflexivity. Qed.

(** Joining a directory and a plain name puts exactly one separator
    between them, unless the directory is empty or already ends in one. *)
Lemma join_plain (d name : str) :
  no_sep name ->
  PosixPath.join d [name] =
    if is_empty d || endswith_char PosixPath.sep d then d ++ name
    else d ++ PosixPath.sep :: name.
Proof.
  intros H; unfold PosixPath.join, PosixPath.join_step; simpl.
  rewrite no_sep_startswith by assumption; reflexivity.
Qed.

Lemma skipn_length_app (A : Type) (d s : list A) :
  skipn (List.length d) (d ++ s) = s.
Proof. induction d; simpl; auto. Qed.

Lemma firstn_length_app (A : Type) (d s : list A) :
  firstn (List.length d) (d ++ s) = d.
Proof. induction d; simpl; f_equal; auto. Qed.

Lemma basename_app_sep (d name : str) :
  no_sep name -> PosixPath.basename (d ++ PosixPath.sep :: name) = name.
Proof.
  intros H; unfold PosixPath.basename.
  rewrite rfind_succ_app_sep by assumption.
  replace (d ++ PosixPath.sep :: name) with ((d ++ [PosixPath.sep]) ++ name)
    by (rewrite <- app_assoc; reflexivity).
  replace (S (List.length d)) with (List.length (d ++ [PosixPath.sep]))
    by (rewrite length_app; simpl; lia).
  apply skipn_length_app.
Qed.

Lemma basename_join (d name : str) :
  no_sep name -> PosixPath.basename (PosixPath.join d [name]) = name.
Proof.
  intros H; rewrite join_plain by assumption.
  destruct d as [|x d _] using rev_ind; simpl.
  - unfold PosixPath.basename.
    rewrite rfind_succ_no_sep by assumption; reflexivity.
  - replace (is_empty (d ++ [x])) with false by (destruct d; reflexivity).
    rewrite endswith_char_snoc; simpl.
    destruct (N.eqb_spec x PosixPath.sep) as [->|_].
    + rewrite <- app_assoc; simpl. apply basename_app_sep, H.
    + apply basename_app_sep, H.
Qed.

Lemma rstrip_sep_keeps (d : str) (x : char) :
  x <> PosixPath.sep -> PosixPath.rstrip_sep (d ++ [x]) = d ++ [x].
Proof.
  intros Hx; induction d as [|a d IH]; simpl.
  - destruct (N.eqb_spec x PosixPath.sep); [contradiction | reflexivity].
  - rewrite IH. destruct d; reflexivity.
Qed.

Lemma rstrip_sep_snoc_sep (h : str) :
  PosixPath.rstrip_sep (h ++ [PosixPath.sep]) = PosixPath.rstrip_sep h.
Proof.
  induction h as [|a h IH]; simpl; [reflexivity|].
  rewrite IH; reflexivity.
Qed.

Lemma forallb_snoc_false (f : char -> bool) (d : str) (x : char) (t : str) :
  f x = false -> forallb f (d ++ x :: t) = false.
Proof.
  intros H; rewrite forallb_app; simpl; rewrite H.
  apply andb_false_r.
Qed.

(** Splitting what [join] made of a directory that does not end in a
    separator and a plain name gives the two back. *)
Lemma split_app_sep (d : str) (x : char) (name : str) :
  x <> PosixPath.sep -> no_sep name ->
  PosixPath.split ((d ++ [x]) ++ PosixPath.sep :: name) = (d ++ [x], name).
Proof.
  intros Hx Hn; unfold PosixPath.split.
  rewrite rfind_succ_app_sep by assumption.
  replace ((d ++ [x]) ++ PosixPath.sep :: name)
    with (((d ++ [x]) ++ [PosixPath.sep]) ++ name)
    by (rewrite <- (app_assoc (d ++ [x])); reflexivity).
  replace (S (List.length (d ++ [x])))
    with (List.length ((d ++ [x]) ++ [PosixPath.sep]))
    by (rewrite (length_app (d ++ [x])); simpl; lia).
  rewrite firstn_length_app, skipn_length_app.
  replace (is_empty ((d ++ [x]) ++ [PosixPath.sep])) with false
    by (destruct d; reflexivity).
  rewrite <- app_assoc; simpl.
  rewrite forallb_snoc_false
    by (apply N.eqb_neq; intros E; apply Hx; symmetry; exact E).
  simpl.
  change (d ++ [x; PosixPath.sep]) with (d ++ [x] ++ [PosixPath.sep]).
  rewrite app_assoc, rstrip_sep_snoc_sep, rstrip_sep_keeps by assumption.
  reflexivity.
Qed.

Lemma join_step_models (path : str) :
  exists d, PosixPath.join_step path (lit "models") = d ++ [115%N].
Proof.
  unfold PosixPath.join_step; simpl.
  destruct (is_empty path || endswith_char PosixPath.sep path).
  - exists (path ++ lit "mode" ++ [108%N]).
    rewrite <- !app_assoc; reflexivity.
  - exists (path ++ PosixPath.sep :: lit "mode" ++ [108%N]).
    rewrite <- !app_assoc; reflexivity.
Qed.

(** The models directory never ends in a separator: its last component
    is [models]. *)
Lemma models_dir_of_last (sd : str) :
  exists d, models_dir_of sd = d ++ [115%N].
Proof. unfold models_dir_of, PosixPath.join; simpl. apply join_step_models. Qed.

Lemma join_models_dir (sd name : str) :
  no_sep name ->
  PosixPath.join (models_dir_of sd) [name] =
    models_dir_of sd ++ PosixPath.sep :: name.
Proof.
  intros H; rewrite join_plain by assumption.
  destruct (models_dir_of_last sd) as [d ->].
  rewrite endswith_char_snoc.
  replace (is_empty (d ++ [115%N])) with false by (destruct d; reflexivity).
  reflexivity.
Qed.

Lemma split_join_models_dir (sd name : str) :
  no_sep name ->
  PosixPath.split (PosixPath.join (models_dir_of sd) [name]) =
    (models_dir_of sd, name).
Proof.
  intros H; rewrite join_models_dir by assumption.
  destruct (models_dir_of_last sd) as [d ->].
  apply split_app_sep; [discriminate | assumption].
Qed.

Lemma no_sep_lit_csv : no_sep (lit "*.csv").
Proof. unfold no_sep; simpl; intuition discriminate. Qed.

Lemma no_sep_models_json : no_sep models_json.
Proof. unfold no_sep; simpl; intuition discriminate. Qed.

(** ** Matching [*.csv] *)

(** A pattern of literal characters matches itself and nothing else. *)
Lemma fnmatch_literal (pat name : str) :
  ~ In Fnmatch.star pat -> ~ In Fnmatch.qmark pat ->
  Fnmatch.fnmatchcase_pat pat name = str_eqb pat name.
Proof.
  revert name; induction pat as [|p pat IH]; intros name Hs Hq.
  - destruct name; reflexivity.
  - simpl in Hs, Hq. simpl.
    destruct (N.eqb_spec p Fnmatch.star) as [->|_]; [tauto|].
    destruct name as [|x name]; [reflexivity|].
    rewrite IH by tauto.
    destruct (N.eqb_spec p Fnmatch.qmark) as [->|_]; [tauto|].
    reflexivity.
Qed.

(** A leading star matches any prefix of the name. *)
Lemma fnmatch_star (pat name : str) :
  Fnmatch.fnmatchcase_pat (Fnmatch.star :: pat) name = true <->
  exists pre suf, name = pre ++ suf /\ Fnmatch.fnmatchcase_pat pat suf = true.
Proof.
  change (Fnmatch.fnmatchcase_pat (Fnmatch.star :: pat)) with
    (fix any_run (name : str) : bool :=
       Fnmatch.fnmatchcase_pat pat name
       || match name with
          | [] => false
          | _ :: name' => any_run name'
          end).
  induction name as [|x name IH].
  - rewrite orb_false_r. split.
    + intros H; exists [], []; auto.
    + intros (pre & suf & E & H).
      symmetry in E; apply app_eq_nil in E; destruct E as [_ ->]; exact H.
  - rewrite orb_true_iff, IH. split.
    + intros [H|(pre & suf & -> & H)].
      * exists [], (x :: name); auto.
      * exists (x :: pre), suf; auto.
    + intros (pre & suf & E & H).
      destruct pre as [|y pre]; simpl in E.
      * left; subst suf; exact H.
      * right; inversion E; subst; eauto.
Qed.

(** The pattern of the script selects the names that end in [.csv]. *)
Lemma fnmatch_csv_suffix (name : str) :
  Fnmatch.fnmatchcase name (lit "*.csv") = true <->
  Spec.has_suffix (lit ".csv") name.
Proof.
  unfold Fnmatch.fnmatchcase, Spec.has_suffix.
  change (lit "*.csv") with (Fnmatch.star :: lit ".csv").
  rewrite fnmatch_star. split.
  - intros (pre & suf & -> & H). exists pre; f_equal.
    rewrite fnmatch_literal in H
      by (unfold Fnmatch.star, Fnmatch.qmark; simpl; intuition discriminate).
    apply str_eqb_eq in H; auto.
  - intros (pre & ->). exists pre, (lit ".csv"); split; reflexivity.
Qed.

Lemma csv_match_spec (name : str) :
  Spec.csv_match name = true <->
  Fnmatch.ishidden name = false /\ Spec.has_suffix (lit ".csv") name.
Proof.
  unfold Spec.csv_match.
  rewrite andb_true_iff, negb_true_iff, fnmatch_csv_suffix; tauto.
Qed.

(** What [glob._glob1] keeps of a listing for the pattern [*.csv]. *)
Lemma glob1_csv (names : list str) :
  Fnmatch.glob1 names (lit "*.csv") = Spec.filter_only names.
Proof.
  unfold Fnmatch.glob1, Fnmatch.filter, Spec.filter_only, Spec.csv_match.
  simpl. induction names as [|n names IH]; simpl; [reflexivity|].
  destruct (Fnmatch.ishidden n); simpl; [exact IH|].
  rewrite <- IH; reflexivity.
Qed.

Lemma suffix_csv_not_models_json (name : str) :
  Spec.has_suffix (lit ".csv") name -> name <> models_json.
Proof.
  intros [pre ->] E.
  apply (f_equal (@rev char)) in E; rewrite rev_app_distr in E.
  discriminate E.
Qed.

Lemma csv_match_not_models_json (name : str) :
  Spec.csv_match name = true -> str_eqb name models_json = false.
Proof.
  intros H; apply csv_match_spec in H; destruct H as [_ H].
  apply str_eqb_neq, suffix_csv_not_models_json, H.
Qed.

(** ** The loop of the script *)

Lemma collect_csv_files_acc (filepaths acc : list str) :
  fold_left
    (fun csv_files filepath =>
       let filename := PosixPath.basename filepath in
       if negb (str_eqb filename models_json)
       then csv_files ++ [filename]
       else csv_files)
    filepaths acc
  = acc ++ List.filter (fun filename => negb (str_eqb filename models_json))
                       (map PosixPath.basename filepaths).
Proof.
  revert acc; induction filepaths as [|p ps IH]; intros acc; simpl.
  - rewrite app_nil_r; reflexivity.
  - rewrite IH.
    destruct (negb (str_eqb (PosixPath.basename p) models_json)); simpl.
    + rewrite <- app_assoc; reflexivity.
    + reflexivity.
Qed.

(** The loop keeps, in order, the base names other than [models.json]. *)
Lemma collect_csv_files_filter (filepaths : list str) :
  collect_csv_files filepaths =
    List.filter (fun filename => negb (str_eqb filename models_json))
                (map PosixPath.basename filepaths).
Proof. unfold collect_csv_files; rewrite collect_csv_files_acc; reflexivity. Qed.

Lemma collect_csv_files_excludes (filepaths : list str) :
  ~ In models_json (collect_csv_files filepaths).
Proof.
  rewrite collect_csv_files_filter, filter_In.
  intros [_ H]; rewrite str_eqb_refl in H; discriminate.
Qed.

Lemma map_basename_join (d : str) (names : list str) :
  Forall no_sep names ->
  map PosixPath.basename (map (fun name => PosixPath.join d [name]) names)
  = names.
Proof.
  induction 1 as [|n names Hn _ IH]; cbn [map]; [reflexivity|].
  rewrite IH. f_equal. apply basename_join, Hn.
Qed.

Lemma filter_only_no_sep (names : list str) :
  Forall no_sep names -> Forall no_sep (Spec.filter_only names).
Proof.
  unfold Spec.filter_only; rewrite !Forall_forall.
  intros H n Hn; apply filter_In in Hn; apply H, Hn.
Qed.

(** The exclusion drops nothing from what the pattern selected. *)
Lemma exclude_redundant (names : list str) :
  Spec.filter_then_exclude names = Spec.filter_only names.
Proof.
  unfold Spec.filter_then_exclude, Spec.filter_only.
  induction names as [|n names IH]; simpl; [reflexivity|].
  destruct (Spec.csv_match n) eqn:E; simpl; [|exact IH].
  rewrite (csv_match_not_models_json _ E); simpl.
  f_equal; exact IH.
Qed.

(** ** Association lists *)

Section AssocFacts.
Variable V : Type.
Implicit Types (l : list (str * V)) (k : str) (v : V).

Lemma lookup_set_same k v l : Assoc.lookup k (Assoc.set k v l) = Some v.
Proof.
  induction l as [|[k0 v0] l IH]; simpl.
  - rewrite str_eqb_refl; reflexivity.
  - destruct (str_eqb k0 k) eqn:E; simpl; rewrite E; auto.
Qed.

Lemma set_set k v1 v2 l :
  Assoc.set k v2 (Assoc.set k v1 l) = Assoc.set k v2 l.
Proof.
  induction l as [|[k0 v0] l IH]; simpl.
  - rewrite str_eqb_refl; reflexivity.
  - destruct (str_eqb k0 k) eqn:E; simpl; rewrite E; [reflexivity|].
    f_equal; exact IH.
Qed.

Lemma set_same k v l : Assoc.lookup k l = Some v -> Assoc.set k v l = l.
Proof.
  induction l as [|[k0 v0] l IH]; simpl; [discriminate|].
  destruct (str_eqb k0 k) eqn:E.
  - intros H; inversion H; reflexivity.
  - intros H; f_equal; auto.
Qed.


(** Setting a key that is bound keeps the keys; setting a new one adds
    it at the end. *)
Lemma keys_set k v l :
  map fst (Assoc.set k v l) =
    match Assoc.lookup k l with
    | Some _ => map fst l
    | None => map fst l ++ [k]
    end.
Proof.
  induction l as [|[k0 v0] l IH]; simpl; [reflexivity|].
  destruct (str_eqb k0 k) eqn:E; simpl; [reflexivity|].
  rewrite IH; destruct (Assoc.lookup k l); reflexivity.
Qed.
End AssocFacts.

(** ** The serialised text *)

Lemma land15_lt (x : N) : (N.land x 15 < 16)%N.
Proof.
  change 15%N with (N.ones 4); rewrite N.land_ones.
  apply N.mod_lt; discriminate.
Qed.

Lemma hex_digit_ascii (d : N) : (d < 16)%N -> (Json.hex_digit d < 128)%N.
Proof.
  intros H; unfold Json.hex_digit; destruct (N.ltb d 10); lia.
Qed.

Lemma u_escape_ascii (n : N) : Spec.ascii_text (Json.u_escape n).
Proof.
  unfold Spec.ascii_text, Json.u_escape, Json.hex4.
  repeat constructor; try lia; apply hex_digit_ascii, land15_lt.
Qed.

Lemma ascii_text_app (a b : str) :
  Spec.ascii_text a -> Spec.ascii_text b -> Spec.ascii_text (a ++ b).
Proof. unfold Spec.ascii_text; intros; apply Forall_app; auto. Qed.

Ltac ascii_literal :=
  unfold Spec.ascii_text; repeat constructor; lia.

(** Whatever the character, its replacement is ASCII. *)
Lemma escape_char_ascii (c : char) : Spec.ascii_text (Json.escape_char c).
Proof.
  unfold Json.escape_char.
  repeat match goal with
         | |- context [if N.eqb c ?k then _ else _] =>
             destruct (N.eqb c k); [ascii_literal|]
         end.
  destruct (N.leb 32 c && N.leb c 126) eqn:E.
  - apply andb_true_iff in E; destruct E as [_ E]; apply N.leb_le in E.
    unfold Spec.ascii_text; repeat constructor; lia.
  - destruct (N.ltb c 65536).
    + apply u_escape_ascii.
    + apply ascii_text_app; apply u_escape_ascii.
Qed.

Lemma encode_basestring_ascii_ascii (s : str) :
  Spec.ascii_text (Json.encode_basestring_ascii s).
Proof.
  unfold Json.encode_basestring_ascii.
  change (34%N :: flat_map Json.escape_char s ++ [34%N])
    with ([34%N] ++ flat_map Json.escape_char s ++ [34%N]).
  repeat apply ascii_text_app; try ascii_literal.
  induction s as [|c s IH]; simpl; [constructor|].
  apply ascii_text_app; [apply escape_char_ascii | exact IH].
Qed.

Lemma iterencode_list_ascii (lst : list str) :
  Forall Spec.ascii_text (Json.iterencode_list lst).
Proof.
  destruct lst as [|value lst]; simpl.
  - repeat constructor; ascii_literal.
  - constructor.
    + apply (@ascii_text_app (91%N :: Json.newline_indent)
                             (Json.encode_basestring_ascii value));
        [ascii_literal | apply encode_basestring_ascii_ascii].
    + apply Forall_app; split.
      * unfold Json.rest_chunks; rewrite Forall_map, Forall_forall.
        intros v _;
          apply (@ascii_text_app Json.separator
                                 (Json.encode_basestring_ascii v));
          [ascii_literal | apply encode_basestring_ascii_ascii].
      * repeat constructor; lia.
Qed.

(** The chunks put together are the array pretty-printed with an
    indentation of 2. *)
Lemma rest_chunks_item_lines (value : str) (lst : list str) :
  [32; 32]%N ++ Json.encode_basestring_ascii value
    ++ List.concat (Json.rest_chunks lst) ++ [10%N]
  = Spec.item_lines (map Json.encode_basestring_ascii (value :: lst)).
Proof.
  revert value; induction lst as [|v lst IH]; intros value.
  - reflexivity.
  - change (Spec.item_lines
              (map Json.encode_basestring_ascii (value :: v :: lst)))
      with ([32; 32]%N ++ Json.encode_basestring_ascii value ++ [44; 10]%N
              ++ Spec.item_lines (map Json.encode_basestring_ascii (v :: lst))).
    rewrite <- IH.
    cbn [Json.rest_chunks map List.concat].
    unfold Json.separator, Json.newline_indent.
    rewrite <- !app_assoc. reflexivity.
Qed.

Lemma concat_iterencode_list (lst : list str) :
  List.concat (Json.iterencode_list lst) =
    Spec.pretty_indent2 (map Json.encode_basestring_ascii lst).
Proof.
  destruct lst as [|value lst]; [reflexivity|].
  unfold Spec.pretty_indent2.
  change (map Json.encode_basestring_ascii (value :: lst))
    with (Json.encode_basestring_ascii value
            :: map Json.encode_basestring_ascii lst).
  cbv iota.
  change (Json.encode_basestring_ascii value
            :: map Json.encode_basestring_ascii lst)
    with (map Json.encode_basestring_ascii (value :: lst)).
  rewrite <- rest_chunks_item_lines.
  cbn [Json.iterencode_list List.concat].
  rewrite concat_app. cbn [List.concat].
  unfold Json.newline_indent.
  rewrite <- !app_assoc. reflexivity.
Qed.

(** An ASCII-compatible encoding writes the chunks as they are. *)
Lemma flat_map_encode_ascii (encode : str -> list N) (chunks : list str) :
  Spec.ascii_compatible encode -> Forall Spec.ascii_text chunks ->
  flat_map encode chunks = List.concat chunks.
Proof.
  intros He; induction 1 as [|c chunks Hc _ IH]; simpl; [reflexivity|].
  rewrite He, IH by assumption; reflexivity.
Qed.

Lemma utf8_encode_ascii (text : str) :
  Spec.ascii_text text -> Spec.utf8_encode text = text.
Proof.
  induction 1 as [|c text Hc _ IH]; [reflexivity|].
  unfold Spec.utf8_encode in *; simpl; rewrite IH.
  unfold Spec.utf8_char.
  apply N.ltb_lt in Hc; rewrite Hc; reflexivity.
Qed.

Lemma utf8_decode_ascii (text : str) :
  Spec.ascii_text text -> Spec.utf8_decode text = Some text.
Proof.
  induction 1 as [|c text Hc _ IH]; [reflexivity|].
  simpl. apply N.ltb_lt in Hc; rewrite Hc, IH; reflexivity.
Qed.

Lemma concat_ascii (chunks : list str) :
  Forall Spec.ascii_text chunks -> Spec.ascii_text (List.concat chunks).
Proof.
  induction 1; simpl; [constructor | apply ascii_text_app; auto].
Qed.

(** ** Running the script *)

Lemma add_stdout_app (w : world) (l1 l2 : list str) :
  add_stdout (add_stdout w l1) l2 = add_stdout w (l1 ++ l2).
Proof. unfold add_stdout; simpl; rewrite app_assoc; reflexivity. Qed.

Lemma add_stdout_nil (w : world) : add_stdout w [] = w.
Proof. destruct w; unfold add_stdout; simpl; rewrite app_nil_r; reflexivity. Qed.

Lemma print_run (s : str) (w : world) : Os.print s w = (Ok tt, add_stdout w [s]).
Proof. reflexivity. Qed.

Lemma for_each_print (f : str -> str) (l : list str) (w : world) :
  for_each l (fun x => Os.print (f x)) w = (Ok tt, add_stdout w (map f l)).
Proof.
  revert w; induction l as [|x l IH]; intros w; simpl.
  - rewrite add_stdout_nil; reflexivity.
  - unfold bind; rewrite print_run, IH, add_stdout_app; reflexivity.
Qed.

Lemma set_dir_same (dirname : str) (entries : list (str * entry)) (w : world) :
  resolve dirname w = Some (Directory entries) ->
  Os.set_dir dirname entries w = w.
Proof.
  unfold resolve, Os.set_dir; intros H.
  rewrite set_same by exact H; destruct w; reflexivity.
Qed.

Lemma set_dir_set_dir (dirname : str) (e1 e2 : list (str * entry)) (w : world) :
  Os.set_dir dirname e2 (Os.set_dir dirname e1 w) = Os.set_dir dirname e2 w.
Proof. unfold Os.set_dir; simpl; rewrite set_set; reflexivity. Qed.

Lemma resolve_set_dir (dirname : str) (entries : list (str * entry)) (w : world) :
  resolve dirname (Os.set_dir dirname entries w) = Some (Directory entries).
Proof. unfold resolve, Os.set_dir; simpl; apply lookup_set_same. Qed.

(** Writing the chunks appends their encodings to the open file. *)
Lemma for_each_write (path dirname name : str) (chunks : list str) :
  PosixPath.split path = (dirname, name) ->
  forall (w : world) (entries : list (str * entry)) (data : list N),
    resolve dirname w = Some (Directory entries) ->
    Assoc.lookup name entries = Some (RegFile data) ->
    for_each chunks (Os.write path) w =
      (Ok tt,
       Os.set_dir dirname
         (Assoc.set name (RegFile (data ++ flat_map (encoding w) chunks))
                    entries) w).
Proof.
  intros Hsplit; induction chunks as [|c chunks IH]; intros w entries data Hd He.
  - simpl. rewrite app_nil_r.
    rewrite set_same by exact He.
    rewrite set_dir_same by exact Hd.
    reflexivity.
  - cbn [for_each]. unfold bind, Os.write at 1.
    rewrite Hsplit, Hd, He.
    rewrite (IH _ (Assoc.set name (RegFile (data ++ encoding w c)) entries)
                (data ++ encoding w c)).
    + rewrite set_dir_set_dir, set_set. cbn [flat_map].
      rewrite app_assoc. reflexivity.
    + apply resolve_set_dir.
    + apply lookup_set_same.
Qed.

(** Opening and dumping: the manifest holds the encoded chunks and
    nothing else. *)
Lemma dump_to_ok (w : world) (entries : list (str * entry)) (csv_files : list str) :
  resolve (models_dir w) w = Some (Directory entries) ->
  Assoc.lookup models_json entries <> Some SubDir ->
  dump_to (json_file w) csv_files w =
    (Ok tt,
     Os.set_dir (models_dir w)
       (Assoc.set models_json
          (RegFile (flat_map (encoding w) (Json.iterencode_list csv_files)))
          entries) w).
Proof.
  intros Hd He.
  assert (Hsplit : PosixPath.split (json_file w) = (models_dir w, models_json))
    by apply split_join_models_dir, no_sep_models_json.
  unfold dump_to, bind, Os.open_w.
  rewrite Hsplit, Hd.
  assert (Hopen :
    match Assoc.lookup models_json entries with
    | Some SubDir => (Raise IsADirectoryError, w)
    | _ => (Ok tt, Os.set_dir (models_dir w)
                     (Assoc.set models_json (RegFile []) entries) w)
    end = (Ok tt, Os.set_dir (models_dir w)
                     (Assoc.set models_json (RegFile []) entries) w)).
  { destruct (Assoc.lookup models_json entries) as [[|]|]; congruence. }
  rewrite Hopen.
  erewrite for_each_write;
    [| exact Hsplit | apply resolve_set_dir | apply lookup_set_same].
  rewrite set_dir_set_dir, set_set. reflexivity.
Qed.

(** The glob lists the matching names of the models directory, each
    joined to its path. *)
Lemma glob_csv (w w' : world) :
  fs w' = fs w ->
  Os.glob (csv_pattern w) w' =
    (Ok (map (fun name => PosixPath.join (models_dir w) [name])
             (Spec.filter_only (Os.listdir (models_dir w) w))),
     w').
Proof.
  intros H; unfold Os.glob, csv_pattern, models_dir.
  rewrite split_join_models_dir by apply no_sep_lit_csv.
  rewrite glob1_csv. unfold Os.listdir, resolve; rewrite H. reflexivity.
Qed.

Lemma csv_files_of_eq (w : world) :
  csv_files_of w =
    PyList.sort
      (collect_csv_files
         (map (fun name => PosixPath.join (models_dir w) [name])
              (Spec.filter_only (Os.listdir (models_dir w) w)))).
Proof.
  unfold csv_files_of.
  rewrite (glob_csv w w) by reflexivity. reflexivity.
Qed.

(** On a listing of plain names the script serialises the sorted
    selection of the pattern. *)
Lemma csv_files_of_plain (w : world) :
  Forall no_sep (Os.listdir (models_dir w) w) ->
  csv_files_of w = PyList.sort (Spec.filter_only (Os.listdir (models_dir w) w)).
Proof.
  intros H; rewrite csv_files_of_eq, collect_csv_files_filter.
  rewrite map_basename_join by apply filter_only_no_sep, H.
  change (List.filter (fun filename => negb (str_eqb filename models_json))
            (Spec.filter_only (Os.listdir (models_dir w) w)))
    with (Spec.filter_then_exclude (Os.listdir (models_dir w) w)).
  rewrite exclude_redundant; reflexivity.
Qed.

Lemma csv_files_of_excludes (w : world) : ~ In models_json (csv_files_of w).
Proof.
  rewrite csv_files_of_eq, sort_In. apply collect_csv_files_excludes.
Qed.

(** *** The three ways a run can go *)

Lemma run_not_found (w : world) :
  resolve (models_dir w) w = None ->
  update_models_json w = (Ok false, add_stdout w [not_found_line w]).
Proof.
  intros H; unfold update_models_json, bind, Os.get_script_dir, Os.path_exists.
  fold (models_dir w). rewrite H. reflexivity.
Qed.

Lemma run_found (w : world) (n : node) :
  resolve (models_dir w) w = Some n ->
  update_models_json w =
    match dump_to (json_file w) (csv_files_of w) (add_stdout w [scanning_line w]) with
    | (Ok _, w') => (Ok true, add_stdout w' (report_lines w))
    | (Raise e, w') => (Raise e, w')
    end.
Proof.
  intros H; unfold update_models_json, bind, Os.get_script_dir, Os.path_exists.
  fold (models_dir w). rewrite H. cbn [negb].
  rewrite print_run. fold (scanning_line w). fold (csv_pattern w).
  rewrite (glob_csv w (add_stdout w [scanning_line w])) by reflexivity.
  rewrite <- csv_files_of_eq. fold (json_file w).
  destruct (dump_to (json_file w) (csv_files_of w)
              (add_stdout w [scanning_line w])) as [[[]|e] w']; [|reflexivity].
  rewrite print_run, for_each_print, print_run, !add_stdout_app.
  reflexivity.
Qed.

Lemma run_success (w : world) (entries : list (str * entry)) :
  resolve (models_dir w) w = Some (Directory entries) ->
  Assoc.lookup models_json entries <> Some SubDir ->
  update_models_json w = (Ok true, success_world w entries).
Proof.
  intros Hd He. rewrite (run_found w Hd).
  pose proof (@dump_to_ok (add_stdout w [scanning_line w]) entries
                (csv_files_of w) Hd He) as Hdump.
  change (json_file (add_stdout w [scanning_line w])) with (json_file w)
    in Hdump.
  rewrite Hdump. unfold success_world, add_stdout, Os.set_dir.
  cbn [script_dir encoding fs stdout].
  rewrite <- app_assoc. reflexivity.
Qed.

Lemma run_not_a_directory (w : world) :
  resolve (models_dir w) w = Some NonDir ->
  update_models_json w =
    (Raise NotADirectoryError, add_stdout w [scanning_line w]).
Proof.
  intros Hd. rewrite (run_found w Hd).
  unfold dump_to, bind, Os.open_w.
  change (json_file (add_stdout w [scanning_line w])) with (json_file w).
  unfold json_file, models_dir.
  rewrite split_join_models_dir by apply no_sep_models_json.
  change (resolve (models_dir_of (script_dir w))
            (add_stdout w [scanning_line w]))
    with (resolve (models_dir w) w).
  rewrite Hd. reflexivity.
Qed.

Lemma run_is_a_directory (w : world) (entries : list (str * entry)) :
  resolve (models_dir w) w = Some (Directory entries) ->
  Assoc.lookup models_json entries = Some SubDir ->
  update_models_json w =
    (Raise IsADirectoryError, add_stdout w [scanning_line w]).
Proof.
  intros Hd He. rewrite (run_found w Hd).
  unfold dump_to, bind, Os.open_w.
  unfold json_file, models_dir.
  rewrite split_join_models_dir by apply no_sep_models_json.
  change (resolve (models_dir_of (script_dir w))
            (add_stdout w [scanning_line w]))
    with (resolve (models_dir w) w).
  rewrite Hd, He. reflexivity.
Qed.

(** Every run ends in one of the four ways of [run_case]. *)
Lemma run_cases (w : world) : run_case w (update_models_json w).
Proof.
  destruct (resolve (models_dir w) w) as [[|entries]|] eqn:Hd.
  - rewrite (run_not_a_directory w Hd); constructor; exact Hd.
  - destruct (Assoc.lookup models_json entries) as [[data|]|] eqn:He.
    + rewrite (@run_success w entries Hd) by congruence.
      apply case_success; [exact Hd | congruence].
    + rewrite (@run_is_a_directory w entries Hd He).
      eapply case_is_a_directory; eauto.
    + rewrite (@run_success w entries Hd) by congruence.
      apply case_success; [exact Hd | congruence].
  - rewrite (run_not_found w Hd); constructor; exact Hd.
Qed.

(** *** Runs on the example worlds *)

Example run_abc :
  update_models_json (Examples.world_with Examples.abc_dir) =
    (Ok true,
     success_world (Examples.world_with Examples.abc_dir) Examples.abc_dir).
Proof. vm_compute; reflexivity. Qed.

Example run_abc_stdout :
  stdout (snd (update_models_json (Examples.world_with Examples.abc_dir))) =
    [lit "Scanning for CSV files in /app/src/data/models...";
     lit "Generated /app/src/data/models/models.json with 3 CSV files:";
     lit "  - a.csv"; lit "  - b.csv"; lit "  - c.csv";
     10%N :: lit "Models.json has been updated! Your web app will now automatically detect all CSV files."].
Proof. vm_compute; reflexivity. Qed.

Example run_missing :
  update_models_json Examples.world_missing =
    (Ok false,
     add_stdout Examples.world_missing
       [lit "Error: Models directory not found at /app/src/data/models"]).
Proof. vm_compute; reflexivity. Qed.

Example run_squatted :
  fst (update_models_json (Examples.world_with Examples.squatted_dir)) =
    Raise IsADirectoryError
  /\ fst (main (Examples.world_with Examples.squatted_dir)) = 1%N.
Proof. split; vm_compute; reflexivity. Qed.

Example run_fancy :
  manifest_bytes
    (snd (update_models_json (Examples.world_with Examples.fancy_dir))) =
    Some ([91; 10; 32; 32; 34; 92; 34]%N
            ++ lit "\u00e9\ud83d\ude00.csv" ++ [34; 10; 93]%N)
  /\ Spec.read_manifest
       (snd (update_models_json (Examples.world_with Examples.fancy_dir))) =
     Some [Examples.fancy_name].
Proof. split; vm_compute; reflexivity. Qed.

(** *** The manifest after a successful run *)

Lemma manifest_bytes_success (w : world) (entries : list (str * entry)) :
  manifest_bytes (success_world w entries) = Some (written_bytes w).
Proof.
  unfold manifest_bytes, read_file.
  change (json_file (success_world w entries)) with (json_file w).
  unfold json_file, models_dir.
  rewrite split_join_models_dir by apply no_sep_models_json.
  unfold success_world, resolve, add_stdout, Os.set_dir; cbn [fs].
  rewrite !lookup_set_same. reflexivity.
Qed.

Lemma written_bytes_ascii (w : world) :
  Spec.ascii_compatible (encoding w) ->
  written_bytes w =
    Spec.pretty_indent2 (map Json.encode_basestring_ascii (csv_files_of w)).
Proof.
  intros H; unfold written_bytes.
  rewrite flat_map_encode_ascii by (auto using iterencode_list_ascii).
  apply concat_iterencode_list.
Qed.


(** ** Reading back what was serialised *)

Lemma land_mul_pow2_small (a b k : N) :
  (b < 2 ^ k)%N -> N.land (a * 2 ^ k) b = 0%N.
Proof.
  intros Hb; apply N.bits_inj; intros m.
  rewrite N.land_spec, N.bits_0.
  destruct (N.lt_ge_cases m k) as [Hm|Hm].
  - rewrite N.mul_pow2_bits_low by assumption; reflexivity.
  - rewrite <- (N.mod_small b (2 ^ k)) by assumption.
    rewrite N.mod_pow2_bits_high by assumption.
    apply andb_false_r.
Qed.

Lemma lor_mul_pow2_add (a b k : N) :
  (b < 2 ^ k)%N -> N.lor (a * 2 ^ k) b = (a * 2 ^ k + b)%N.
Proof.
  intros Hb.
  rewrite N.add_nocarry_lxor by (apply land_mul_pow2_small, Hb).
  rewrite N.lxor_lor by (apply land_mul_pow2_small, Hb).
  reflexivity.
Qed.

Lemma land15_mod (x : N) : N.land x 15 = (x mod 16)%N.
Proof. change 15%N with (N.ones 4); apply N.land_ones. Qed.

Lemma hex_val_digit (d : N) :
  (d < 16)%N -> Spec.hex_val (Json.hex_digit d) = Some d.
Proof.
  intros Hd; unfold Json.hex_digit, Spec.hex_val.
  destruct (N.ltb_spec d 10) as [H|H].
  - replace (N.leb 48 (48 + d) && N.leb (48 + d) 57) with true.
    + f_equal; lia.
    + symmetry; apply andb_true_iff; split; apply N.leb_le; lia.
  - replace (N.leb 48 (87 + d) && N.leb (87 + d) 57) with false.
    + replace (N.leb 97 (87 + d) && N.leb (87 + d) 102) with true.
      * f_equal; lia.
      * symmetry; apply andb_true_iff; split; apply N.leb_le; lia.
    + symmetry; apply andb_false_iff; right; apply N.leb_gt; lia.
Qed.

(** The four digits of [hex4] spell the number. *)
Lemma hex4_digits (v : N) :
  (v < 65536)%N ->
  ((((0 * 16 + N.land (N.shiftr v 12) 15) * 16
       + N.land (N.shiftr v 8) 15) * 16
      + N.land (N.shiftr v 4) 15) * 16
     + N.land v 15 = v)%N.
Proof.
  intros Hv. rewrite !land15_mod, !N.shiftr_div_pow2.
  change (2 ^ 12)%N with (16 * 16 * 16)%N.
  change (2 ^ 8)%N with (16 * 16)%N.
  change (2 ^ 4)%N with 16%N.
  rewrite <- !N.Div0.div_div.
  pose proof (N.div_mod v 16) as E0.
  pose proof (N.div_mod (v / 16) 16) as E1.
  pose proof (N.div_mod (v / 16 / 16) 16) as E2.
  assert (H3 : (v / 16 / 16 / 16 < 16)%N).
  { repeat apply N.Div0.div_lt_upper_bound. exact Hv. }
  rewrite (N.mod_small _ _ H3).
  specialize (E0 ltac:(discriminate)).
  specialize (E1 ltac:(discriminate)).
  specialize (E2 ltac:(discriminate)).
  lia.
Qed.

Lemma step_hex (acc : str) (hi : option N) (k : nat) (v d : N) (out : list str) :
  (d < 16)%N ->
  Spec.step (Spec.InHex acc hi (S (S k)) v, out) (Json.hex_digit d) =
    (Spec.InHex acc hi (S k) (v * 16 + d), out).
Proof. intros H; unfold Spec.step; rewrite hex_val_digit by exact H; reflexivity. Qed.

Lemma step_hex_last (acc : str) (hi : option N) (v d : N) (out : list str) :
  (d < 16)%N ->
  Spec.step (Spec.InHex acc hi 1 v, out) (Json.hex_digit d) =
    (Spec.unicode_escape acc hi (v * 16 + d), out).
Proof. intros H; unfold Spec.step; rewrite hex_val_digit by exact H; reflexivity. Qed.

Lemma parse_u_escape (acc : str) (hi : option N) (out : list str) (v : N) :
  (v < 65536)%N ->
  fold_left Spec.step (Json.u_escape v) (Spec.InStr acc hi, out) =
    (Spec.unicode_escape acc hi v, out).
Proof.
  intros Hv. unfold Json.u_escape, Json.hex4.
  cbn [fold_left].
  change (Spec.step (Spec.InStr acc hi, out) 92%N) with (Spec.InEsc acc hi, out).
  change (Spec.step (Spec.InEsc acc hi, out) 117%N)
    with (Spec.InHex acc hi 4 0%N, out).
  rewrite !step_hex, step_hex_last by apply land15_lt.
  rewrite hex4_digits by exact Hv. reflexivity.
Qed.

(** A character beyond the basic plane comes back from its surrogate
    pair. *)
Lemma surrogates_high (n : N) :
  (n < 1048576)%N ->
  N.lor 55296 (N.land (N.shiftr n 10) 1023) = (55296 + n / 1024)%N.
Proof.
  intros Hn.
  change 1023%N with (N.ones 10); rewrite N.land_ones, N.shiftr_div_pow2.
  change (2 ^ 10)%N with 1024%N.
  assert (H : (n / 1024 < 1024)%N)
    by (apply N.Div0.div_lt_upper_bound; exact Hn).
  rewrite (N.mod_small _ _ H).
  change 55296%N with (54 * 2 ^ 10)%N.
  apply lor_mul_pow2_add; exact H.
Qed.

Lemma surrogates_low (n : N) :
  N.lor 56320 (N.land n 1023) = (56320 + n mod 1024)%N.
Proof.
  change 1023%N with (N.ones 10); rewrite N.land_ones.
  change 56320%N with (55 * 2 ^ 10)%N.
  apply lor_mul_pow2_add, N.mod_lt; discriminate.
Qed.

Lemma surrogates_join (n : N) :
  (n < 1048576)%N ->
  (65536 + N.lor (N.shiftl (55296 + n / 1024 - 55296) 10)
                 (56320 + n mod 1024 - 56320) = 65536 + n)%N.
Proof.
  intros Hn.
  rewrite (N.add_comm 55296), (N.add_comm 56320), !N.add_sub.
  rewrite N.shiftl_mul_pow2.
  rewrite lor_mul_pow2_add by (apply N.mod_lt; discriminate).
  change (2 ^ 10)%N with 1024%N.
  rewrite (N.mul_comm (n / 1024)), <- N.div_mod by discriminate.
  reflexivity.
Qed.

Lemma is_high_bounds (v : N) :
  Spec.is_high v = true <-> (55296 <= v <= 56319)%N.
Proof. unfold Spec.is_high; rewrite andb_true_iff, !N.leb_le; tauto. Qed.

Lemma is_low_bounds (v : N) :
  Spec.is_low v = true <-> (56320 <= v <= 57343)%N.
Proof. unfold Spec.is_low; rewrite andb_true_iff, !N.leb_le; tauto. Qed.

(** The reader undoes the replacement of each character. *)
Lemma parse_escape_char (acc : str) (out : list str) (c : char) :
  char_ok c ->
  fold_left Spec.step (Json.escape_char c) (Spec.InStr acc None, out) =
    (Spec.InStr (acc ++ [c]) None, out).
Proof.
  intros [Hc Hhi]. unfold Json.escape_char.
  destruct (N.eqb_spec c 92) as [->|N92]; [reflexivity|].
  destruct (N.eqb_spec c 34) as [->|N34]; [reflexivity|].
  destruct (N.eqb_spec c 8) as [->|_]; [reflexivity|].
  destruct (N.eqb_spec c 12) as [->|_]; [reflexivity|].
  destruct (N.eqb_spec c 10) as [->|_]; [reflexivity|].
  destruct (N.eqb_spec c 13) as [->|_]; [reflexivity|].
  destruct (N.eqb_spec c 9) as [->|_]; [reflexivity|].
  destruct (N.leb 32 c && N.leb c 126) eqn:Hp.
  - apply andb_true_iff in Hp; destruct Hp as [Hlo _]; apply N.leb_le in Hlo.
    cbn [fold_left]. unfold Spec.step.
    apply N.eqb_neq in N34, N92; rewrite N34, N92.
    replace (N.ltb c 32) with false by (symmetry; apply N.ltb_ge; exact Hlo).
    reflexivity.
  - destruct (N.ltb_spec c 65536) as [Hb|Hb].
    + rewrite parse_u_escape by exact Hb.
      unfold Spec.unicode_escape; rewrite Hhi; reflexivity.
    + assert (Hn : (c - 65536 < 1048576)%N) by lia.
      cbv zeta. rewrite fold_left_app.
      rewrite surrogates_high by exact Hn. rewrite surrogates_low.
      assert (Hq : (( c - 65536) / 1024 < 1024)%N)
        by (apply N.Div0.div_lt_upper_bound; exact Hn).
      assert (Hr : ((c - 65536) mod 1024 < 1024)%N)
        by (apply N.mod_lt; discriminate).
      replace (acc ++ [c]) with (acc ++ [65536 + (c - 65536)]%N)
        by (do 2 f_equal; lia).
      rewrite <- surrogates_join by exact Hn.
      set (q := ((c - 65536) / 1024)%N) in *.
      set (r := ((c - 65536) mod 1024)%N) in *.
      rewrite parse_u_escape by lia.
      unfold Spec.unicode_escape at 1.
      replace (Spec.is_high (55296 + q)) with true
        by (symmetry; apply is_high_bounds; lia).
      rewrite parse_u_escape by lia.
      unfold Spec.unicode_escape.
      replace (Spec.is_low (56320 + r)) with true
        by (symmetry; apply is_low_bounds; lia).
      reflexivity.
Qed.

Lemma parse_string_body (s : str) :
  Forall char_ok s ->
  forall (acc : str) (out : list str),
    fold_left Spec.step (flat_map Json.escape_char s) (Spec.InStr acc None, out)
    = (Spec.InStr (acc ++ s) None, out).
Proof.
  induction 1 as [|c s Hc _ IH]; intros acc out; cbn [flat_map fold_left].
  - rewrite app_nil_r; reflexivity.
  - rewrite fold_left_app, parse_escape_char by exact Hc.
    rewrite IH, <- app_assoc; reflexivity.
Qed.

(** A serialised string, met where a value may start, is read back. *)
Lemma parse_string (s : str) (m : Spec.mode) (out : list str) :
  Forall char_ok s -> m = Spec.First \/ m = Spec.Value ->
  fold_left Spec.step (Json.encode_basestring_ascii s) (m, out) =
    (Spec.After, out ++ [s]).
Proof.
  intros Hs Hm. unfold Json.encode_basestring_ascii. cbn [fold_left].
  replace (Spec.step (m, out) 34%N) with (Spec.InStr [] None, out)
    by (destruct Hm as [-> | ->]; reflexivity).
  rewrite fold_left_app, parse_string_body by exact Hs.
  reflexivity.
Qed.

Lemma parse_rest_chunks (l : list str) :
  Forall (Forall char_ok) l ->
  forall out : list str,
    fold_left Spec.step (List.concat (Json.rest_chunks l)) (Spec.After, out)
    = (Spec.After, out ++ l).
Proof.
  induction 1 as [|v l Hv _ IH]; intros out.
  - cbn. rewrite app_nil_r; reflexivity.
  - cbn [Json.rest_chunks map List.concat].
    rewrite fold_left_app.
    unfold Json.separator, Json.newline_indent. cbn [app fold_left].
    change (Spec.step (Spec.step (Spec.step (Spec.step (Spec.After, out) 44%N) 10%N) 32%N) 32%N)
      with (Spec.Value, out).
    rewrite parse_string by auto.
    change (map (fun value => 44%N :: [10; 32; 32]%N
                   ++ Json.encode_basestring_ascii value) l)
      with (Json.rest_chunks l).
    rewrite IH, <- app_assoc; reflexivity.
Qed.

(** Reading the serialised array gives the list back. *)
Lemma json_loads_dump (l : list str) :
  Forall (Forall char_ok) l ->
  Spec.json_loads (List.concat (Json.iterencode_list l)) = Some l.
Proof.
  intros H; unfold Spec.json_loads.
  destruct H as [|v l Hv Hl]; [reflexivity|].
  cbn [Json.iterencode_list List.concat].
  unfold Json.newline_indent. cbn [app].
  rewrite concat_app; cbn [List.concat app].
  cbn [fold_left].
  change (Spec.step (Spec.step (Spec.step (Spec.step (Spec.Start, []) 91%N) 10%N) 32%N) 32%N)
    with (Spec.First, @nil str).
  rewrite fold_left_app, parse_string by auto.
  rewrite fold_left_app, parse_rest_chunks by exact Hl.
  reflexivity.
Qed.

(** ** Listings *)

Lemma lookup_In (V : Type) (k : str) (v : V) (l : list (str * V)) :
  Assoc.lookup k l = Some v -> In (k, v) l.
Proof.
  induction l as [|[k0 v0] l IH]; simpl; [discriminate|].
  destruct (str_eqb k0 k) eqn:E.
  - apply str_eqb_eq in E; subst k0. intros H; inversion H; auto.
  - auto.
Qed.

Lemma only_files_manifest_free (entries : list (str * entry)) :
  only_files entries -> manifest_free entries.
Proof.
  intros H E; apply lookup_In, H in E. destruct E; discriminate.
Qed.

Lemma listdir_directory (w : world) (entries : list (str * entry)) :
  resolve (models_dir w) w = Some (Directory entries) ->
  Os.listdir (models_dir w) w = map fst entries.
Proof. unfold Os.listdir; intros ->; reflexivity. Qed.

Lemma filter_perm (A : Type) (f : A -> bool) (l1 l2 : list A) :
  Permutation l1 l2 -> Permutation (List.filter f l1) (List.filter f l2).
Proof.
  induction 1 as [|x l1 l2 _ IH|x y l|l1 l2 l3 _ IH1 _ IH2]; simpl.
  - constructor.
  - destruct (f x); [constructor|]; exact IH.
  - destruct (f x), (f y); try reflexivity. apply perm_swap.
  - etransitivity; eauto.
Qed.

Lemma perm_Forall (A : Type) (P : A -> Prop) (l1 l2 : list A) :
  Permutation l1 l2 -> Forall P l1 -> Forall P l2.
Proof.
  rewrite !Forall_forall; intros Hp H x Hx.
  apply H. eapply Permutation_in; [apply Permutation_sym; exact Hp | exact Hx].
Qed.

Lemma name_char_ok_spec (c : char) :
  Spec.name_char_ok c = true -> char_ok c /\ c <> PosixPath.sep.
Proof.
  unfold Spec.name_char_ok, char_ok.
  rewrite !andb_true_iff, !negb_true_iff, N.ltb_lt, !N.eqb_neq. tauto.
Qed.

Lemma valid_name_char_ok (name : str) :
  Spec.valid_name name = true -> Forall char_ok name.
Proof.
  unfold Spec.valid_name; rewrite andb_true_iff, forallb_forall, Forall_forall.
  intros [_ H] c Hc; apply name_char_ok_spec; auto.
Qed.

Lemma valid_name_no_sep (name : str) :
  Spec.valid_name name = true -> no_sep name.
Proof.
  unfold Spec.valid_name, no_sep; rewrite andb_true_iff, forallb_forall.
  intros [_ H] Hin. apply H, name_char_ok_spec in Hin. tauto.
Qed.

Lemma wf_listing_no_sep (names : list str) :
  Spec.wf_listing names -> Forall no_sep names.
Proof.
  intros [_ H]; revert H; apply Forall_impl. exact valid_name_no_sep.
Qed.

Lemma filter_only_In (name : str) (names : list str) :
  In name (Spec.filter_only names) <->
  In name names /\ Spec.csv_match name = true.
Proof. apply filter_In. Qed.

(** What a run serialises, on a well-formed listing. *)
Lemma csv_files_of_In (w : world) (name : str) :
  Forall no_sep (Os.listdir (models_dir w) w) ->
  (In name (csv_files_of w) <->
   In name (Os.listdir (models_dir w) w) /\ Spec.csv_match name = true).
Proof.
  intros H; rewrite csv_files_of_plain, sort_In by exact H.
  apply filter_only_In.
Qed.

Lemma csv_files_of_char_ok (w : world) :
  Spec.wf_listing (Os.listdir (models_dir w) w) ->
  Forall (Forall char_ok) (csv_files_of w).
Proof.
  intros Hwf. rewrite Forall_forall; intros name Hin.
  apply csv_files_of_In in Hin; [|apply wf_listing_no_sep, Hwf].
  destruct Hwf as [_ Hv]; rewrite Forall_forall in Hv.
  apply valid_name_char_ok, Hv, Hin.
Qed.

Lemma csv_files_of_NoDup (w : world) :
  Spec.wf_listing (Os.listdir (models_dir w) w) -> NoDup (csv_files_of w).
Proof.
  intros Hwf. rewrite csv_files_of_plain by apply wf_listing_no_sep, Hwf.
  eapply Permutation_NoDup; [apply Permutation_sym, sort_perm|].
  apply NoDup_filter, Hwf.
Qed.

(** After a successful run on a listing that the reader can give back,
    the manifest parses to the serialised names. *)
Lemma read_manifest_success (w : world) (entries : list (str * entry)) :
  Spec.ascii_compatible (encoding w) ->
  Forall (Forall char_ok) (csv_files_of w) ->
  Spec.read_manifest (success_world w entries) = Some (csv_files_of w).
Proof.
  intros Ha Hok. unfold Spec.read_manifest.
  rewrite manifest_bytes_success. unfold written_bytes.
  rewrite flat_map_encode_ascii by (auto using iterencode_list_ascii).
  rewrite utf8_decode_ascii by apply concat_ascii, iterencode_list_ascii.
  apply json_loads_dump, Hok.
Qed.

Lemma utf8_ascii_compatible : Spec.ascii_compatible Spec.utf8_encode.
Proof. exact utf8_encode_ascii. Qed.

(** A successful run, seen from its result. *)
Lemma run_success_inv (w w' : world) :
  update_models_json w = (Ok true, w') ->
  exists entries,
    resolve (models_dir w) w = Some (Directory entries)
    /\ manifest_free entries
    /\ w' = success_world w entries.
Proof.
  intros H. pose proof (run_cases w) as Hc. rewrite H in Hc.
  inversion Hc; subst. eauto.
Qed.

(** ** Glob characters in the pattern *)

Lemma has_magic_app (a b : str) :
  Glob.has_magic (a ++ b) = Glob.has_magic a || Glob.has_magic b.
Proof. apply existsb_app. Qed.

Lemma has_magic_join_step (path b : str) :
  startswith_char PosixPath.sep b = false ->
  Glob.has_magic (PosixPath.join_step path b) =
    Glob.has_magic path || Glob.has_magic b.
Proof.
  intros Hb; unfold PosixPath.join_step; rewrite Hb.
  destruct (is_empty path || endswith_char PosixPath.sep path).
  - apply has_magic_app.
  - change (path ++ PosixPath.sep :: b) with (path ++ [PosixPath.sep] ++ b).
    rewrite !has_magic_app. reflexivity.
Qed.

(** The directory part of the pattern of the script, the models
    directory, holds a character that glob expands exactly when the
    directory of the script does: for the worlds without one, taking the
    directory part literally is what [glob.glob] does. *)
Lemma has_magic_models_dir (w : world) :
  Glob.has_magic (models_dir w) = Glob.has_magic (script_dir w).
Proof.
  unfold models_dir, models_dir_of, PosixPath.join. cbn [fold_left].
  rewrite !has_magic_join_step by reflexivity.
  cbn. rewrite !orb_false_r. reflexivity.
Qed.

(* ================================================================== *)
(** * The claims *)

(** C1. With the script in a directory whose path holds no character
    that glob expands: in a models directory that holds exactly the
    files a.csv, c.csv, b.csv and models.json, in whatever order they are
    listed and whatever they contain, a run succeeds and leaves a
    manifest that parses to the array of a.csv, b.csv, c.csv: the
    manifest itself is left out and the names are sorted. *)
Theorem C1_manifest_of_abc (w : world) (entries : list (str * entry)) :
  Glob.has_magic (script_dir w) = false ->
  Spec.ascii_compatible (encoding w) ->
  resolve (models_dir w) w = Some (Directory entries) ->
  Permutation (map fst entries) Examples.abc_names ->
  only_files entries ->
  exists w',
    update_models_json w = (Ok true, w')
    /\ Spec.read_manifest w' = Some Examples.abc_sorted
    /\ manifest_bytes w' =
         Some (Spec.pretty_indent2 (map Examples.quoted Examples.abc_sorted)).
Proof.
  intros _ Ha Hd Hp Hf.
  exists (success_world w entries).
  assert (Hn : Forall no_sep (Os.listdir (models_dir w) w)).
  { rewrite (listdir_directory w Hd).
    apply (perm_Forall (Permutation_sym Hp)).
    repeat constructor; unfold no_sep; simpl; intuition discriminate. }
  assert (Hl : csv_files_of w = Examples.abc_sorted).
  { rewrite csv_files_of_plain by exact Hn.
    rewrite (listdir_directory w Hd). unfold Spec.filter_only.
    rewrite (sort_perm_invariant (filter_perm Spec.csv_match Hp)).
    reflexivity. }
  split; [apply run_success; [exact Hd | apply only_files_manifest_free, Hf]|].
  split.
  - rewrite read_manifest_success; [rewrite Hl; reflexivity | exact Ha |].
    rewrite Hl. repeat constructor; unfold Spec.is_high; simpl; lia.
  - rewrite manifest_bytes_success, written_bytes_ascii by exact Ha.
    rewrite Hl; reflexivity.
Qed.

Lemma C1_witness :
  exists w',
    update_models_json (Examples.world_with Examples.abc_dir) = (Ok true, w')
    /\ Spec.read_manifest w' = Some Examples.abc_sorted
    /\ manifest_bytes w' =
         Some (Spec.pretty_indent2 (map Examples.quoted Examples.abc_sorted)).
Proof.
  apply (@C1_manifest_of_abc (Examples.world_with Examples.abc_dir)
           Examples.abc_dir).
  - reflexivity.
  - exact utf8_ascii_compatible.
  - reflexivity.
  - apply Permutation_refl.
  - intros name e H; simpl in H.
    repeat (destruct H as [H|H]; [inversion H; eexists; reflexivity|]).
    destruct H.
Defined.



(** C3, as stated, fails: without a models directory the function
    returns False and the process still exits with status 0. *)
Lemma C3_counterexample :
  ~ exit_status_reflects_failure Examples.world_missing.
Proof.
  unfold exit_status_reflects_failure; intros [_ H].
  apply H; reflexivity.
Qed.

(** C3, amended. The value returned is False exactly when the models
    directory is not found, but the exit status does not carry it: the
    status is 0 whenever the function returns, that case included, and 1
    exactly when an exception escapes. *)
Theorem C3_exit_status (w : world) :
  (fst (update_models_json w) = Ok false <-> resolve (models_dir w) w = None)
  /\ (fst (main w) = 0%N <-> exists b, fst (update_models_json w) = Ok b)
  /\ (fst (main w) = 1%N <-> exists e, fst (update_models_json w) = Raise e)
  /\ (resolve (models_dir w) w = None -> fst (main w) = 0%N).
Proof.
  unfold main. pose proof (run_cases w) as Hc.
  destruct Hc as [Hd|Hd|entries Hd He|entries Hd He]; cbn [fst];
    rewrite Hd; repeat split; intros; try discriminate; try reflexivity; eauto;
    match goal with
    | H : exists _, _ |- _ => destruct H; discriminate
    end.
Qed.

(** C5, as stated, fails: a models directory that holds nothing but a
    subdirectory called models.json has no name that ends in .csv, and a
    run on it raises IsADirectoryError and writes no manifest. *)
Lemma C5_counterexample :
  ~ empty_manifest_written (Examples.world_with manifest_subdir_only)
                           manifest_subdir_only.
Proof.
  intros H. destruct H as (w' & Hrun & _).
  - reflexivity.
  - intros name [<-|[]] Hs.
    apply suffix_csv_not_models_json in Hs. apply Hs; reflexivity.
  - rewrite (@run_is_a_directory (Examples.world_with manifest_subdir_only)
               manifest_subdir_only eq_refl eq_refl) in Hrun.
    discriminate Hrun.
Qed.

(** C5, amended. With the script in a directory whose path holds no
    character that glob expands: in a models directory without a name
    that ends in .csv, where the place of the manifest is not taken by a
    subdirectory, a run succeeds and leaves the empty array; so it is
    with an empty directory and with one that holds only the file
    models.json. *)
Theorem C5_empty_manifest (w : world) (entries : list (str * entry)) :
  Glob.has_magic (script_dir w) = false ->
  Spec.ascii_compatible (encoding w) ->
  resolve (models_dir w) w = Some (Directory entries) ->
  (forall name, In name (map fst entries) ->
                ~ Spec.has_suffix (lit ".csv") name) ->
  manifest_free entries ->
  exists w',
    update_models_json w = (Ok true, w')
    /\ Spec.read_manifest w' = Some []
    /\ manifest_bytes w' = Some [91; 93]%N.
Proof.
  intros _ Ha Hd Hnone He.
  exists (success_world w entries).
  assert (Hl : csv_files_of w = []).
  { rewrite csv_files_of_eq, (listdir_directory w Hd).
    replace (Spec.filter_only (map fst entries)) with (@nil str);
      [reflexivity|].
    symmetry. unfold Spec.filter_only.
    induction (map fst entries) as [|n names IH]; [reflexivity|].
    simpl. destruct (Spec.csv_match n) eqn:E.
    - apply csv_match_spec in E. exfalso.
      apply (Hnone n); [left; reflexivity | tauto].
    - apply IH. intros name Hin; apply Hnone; right; exact Hin. }
  split; [apply run_success; assumption|]. split.
  - rewrite read_manifest_success; [rewrite Hl; reflexivity | exact Ha |].
    rewrite Hl; constructor.
  - rewrite manifest_bytes_success, written_bytes_ascii by exact Ha.
    rewrite Hl; reflexivity.
Qed.

Lemma C5_witness :
  (exists w',
     update_models_json (Examples.world_with []) = (Ok true, w')
     /\ Spec.read_manifest w' = Some []
     /\ manifest_bytes w' = Some [91; 93]%N)
  /\ (exists w',
        update_models_json (Examples.world_with Examples.only_manifest_dir)
          = (Ok true, w')
        /\ Spec.read_manifest w' = Some []
        /\ manifest_bytes w' = Some [91; 93]%N).
Proof.
  split.
  - apply (@C5_empty_manifest (Examples.world_with []) []).
    + reflexivity.
    + exact utf8_ascii_compatible.
    + reflexivity.
    + intros name [].
    + discriminate.
  - apply (@C5_empty_manifest (Examples.world_with Examples.only_manifest_dir)
             Examples.only_manifest_dir).
    + reflexivity.
    + exact utf8_ascii_compatible.
    + reflexivity.
    + intros name [<-|[]] H.
      apply suffix_csv_not_models_json in H. apply H; reflexivity.
    + discriminate.
Defined.

(** ** Order of occurrence in an ascending list *)

Lemma ascending_app_later (a : list str) (y : str) (rest : list str) :
  Spec.ascending (a ++ y :: rest) -> Forall (Spec.lex_le y) rest.
Proof.
  unfold Spec.ascending; induction a as [|x a IH]; simpl; intros H;
    inversion H; subst; auto.
Qed.

Lemma ascending_occurs_before (l : list str) (x y : str) :
  Spec.ascending l -> In x l -> In y l -> Spec.lex_lt x y ->
  Spec.occurs_before x y l.
Proof.
  intros Hs Hx Hy Hlt.
  apply in_split in Hx; destruct Hx as (l1 & l2 & ->).
  apply in_app_or in Hy; destruct Hy as [Hy|[Hy|Hy]].
  - exfalso. apply in_split in Hy; destruct Hy as (a & b & ->).
    rewrite <- app_assoc in Hs; simpl in Hs.
    apply ascending_app_later in Hs. rewrite Forall_forall in Hs.
    assert (Hle : Spec.lex_le y x)
      by (apply Hs, in_or_app; right; left; reflexivity).
    destruct Hle as [->|Hle].
    + exact (lex_lt_irrefl Hlt).
    + exact (lex_lt_asym Hlt Hle).
  - subst y. exfalso; exact (lex_lt_irrefl Hlt).
  - apply in_split in Hy; destruct Hy as (a & b & ->).
    exists l1, a, b; reflexivity.
Qed.

Lemma occurs_before_ascending (l : list str) (x y : str) :
  Spec.ascending l -> NoDup l -> Spec.occurs_before x y l -> Spec.lex_lt x y.
Proof.
  intros Hs Hn (l1 & l2 & l3 & ->).
  pose proof (ascending_app_later _ _ _ Hs) as Hle.
  rewrite Forall_forall in Hle.
  destruct (Hle y) as [->|Hlt]; [apply in_or_app; right; left; reflexivity | |
                                 exact Hlt].
  exfalso. apply NoDup_remove_2 in Hn. apply Hn.
  apply in_or_app; right. apply in_or_app; right; left; reflexivity.
Qed.

(** ** The listing after the manifest was written *)

Lemma filter_only_snoc_manifest (names : list str) :
  Spec.filter_only (names ++ [models_json]) = Spec.filter_only names.
Proof.
  unfold Spec.filter_only; rewrite filter_app; simpl.
  apply app_nil_r.
Qed.

Lemma filter_only_keys_set (e : entry) (entries : list (str * entry)) :
  Spec.filter_only (map fst (Assoc.set models_json e entries)) =
  Spec.filter_only (map fst entries).
Proof.
  rewrite keys_set.
  destruct (Assoc.lookup models_json entries);
    [reflexivity | apply filter_only_snoc_manifest].
Qed.

(** Creating or replacing the manifest does not change what a run
    serialises. *)
Lemma csv_files_of_set_manifest
      (w : world) (e : entry) (entries : list (str * entry)) (lines : list str) :
  resolve (models_dir w) w = Some (Directory entries) ->
  csv_files_of
    (add_stdout
       (Os.set_dir (models_dir w) (Assoc.set models_json e entries) w) lines)
  = csv_files_of w.
Proof.
  intros Hd. rewrite !csv_files_of_eq.
  set (w0 := add_stdout _ lines).
  change (models_dir w0) with (models_dir w).
  assert (H0 : resolve (models_dir w) w0 =
               Some (Directory (Assoc.set models_json e entries)))
    by apply resolve_set_dir.
  unfold Os.listdir. rewrite H0, Hd, filter_only_keys_set. reflexivity.
Qed.

Lemma written_bytes_set_manifest
      (w : world) (e : entry) (entries : list (str * entry)) (lines : list str) :
  resolve (models_dir w) w = Some (Directory entries) ->
  written_bytes
    (add_stdout
       (Os.set_dir (models_dir w) (Assoc.set models_json e entries) w) lines)
  = written_bytes w.
Proof.
  intros Hd. unfold written_bytes.
  rewrite (csv_files_of_set_manifest w e lines Hd). reflexivity.
Qed.

Lemma manifest_bytes_add_stdout (w : world) (lines : list str) :
  manifest_bytes (add_stdout w lines) = manifest_bytes w.
Proof. reflexivity. Qed.

(** A second run ends as the first did and leaves the same manifest. *)
Lemma second_run (w : world) :
  let w1 := snd (update_models_json w) in
  fst (update_models_json w1) = fst (update_models_json w)
  /\ manifest_bytes (snd (update_models_json w1)) = manifest_bytes w1.
Proof.
  cbv zeta. destruct (run_cases w) as [Hd|Hd|entries Hd He|entries Hd He];
    cbn [fst snd].
  - rewrite (@run_not_found (add_stdout w [not_found_line w]) Hd).
    split; reflexivity.
  - rewrite (@run_not_a_directory (add_stdout w [scanning_line w]) Hd).
    split; reflexivity.
  - rewrite (@run_is_a_directory (add_stdout w [scanning_line w]) entries Hd He).
    split; reflexivity.
  - set (entries1 := Assoc.set models_json (RegFile (written_bytes w)) entries).
    assert (Hd1 : resolve (models_dir (success_world w entries))
                          (success_world w entries)
                  = Some (Directory entries1)) by apply resolve_set_dir.
    assert (He1 : Assoc.lookup models_json entries1 <> Some SubDir)
      by (unfold entries1; rewrite lookup_set_same; discriminate).
    rewrite (run_success _ Hd1 He1). cbn [fst snd]. split; [reflexivity|].
    rewrite !manifest_bytes_success.
    unfold success_world. rewrite written_bytes_set_manifest by exact Hd.
    reflexivity.
Qed.

(** The same names ending in .csv give the same serialised list. *)
Lemma csv_files_of_same_set (w v : world) :
  Spec.wf_listing (Os.listdir (models_dir w) w) ->
  Spec.wf_listing (Os.listdir (models_dir v) v) ->
  (forall name, Spec.has_suffix (lit ".csv") name ->
     (In name (Os.listdir (models_dir w) w)
      <-> In name (Os.listdir (models_dir v) v))) ->
  csv_files_of w = csv_files_of v.
Proof.
  intros Hw Hv Hsame.
  rewrite !csv_files_of_plain by (apply wf_listing_no_sep; assumption).
  apply sort_perm_invariant, NoDup_Permutation.
  - apply NoDup_filter, Hw.
  - apply NoDup_filter, Hv.
  - intros name; rewrite !filter_only_In. split; intros [Hin Hm]; split;
      try exact Hm; apply (Hsame name); try exact Hin;
      apply csv_match_spec in Hm; tauto.
Qed.

(** C4. With the script in a directory whose path holds no character
    that glob expands: after a successful run on a well-formed listing
    the manifest parses to an array in which a name occurs before
    another exactly when it is smaller in the lexicographic order by code
    point, upper case before lower case; so Model2.csv occurs before
    model1.csv whenever the directory holds both. *)
Theorem C4_code_point_order (w w' : world) :
  Glob.has_magic (script_dir w) = false ->
  update_models_json w = (Ok true, w') ->
  Spec.ascii_compatible (encoding w) ->
  Spec.wf_listing (Os.listdir (models_dir w) w) ->
  exists l,
    Spec.read_manifest w' = Some l
    /\ Spec.ascending l
    /\ (forall x y, Spec.occurs_before x y l -> Spec.lex_lt x y)
    /\ (forall x y, In x l -> In y l -> Spec.lex_lt x y ->
                    Spec.occurs_before x y l)
    /\ (In Examples.model2 (Os.listdir (models_dir w) w) ->
        In Examples.model1 (Os.listdir (models_dir w) w) ->
        Spec.occurs_before Examples.model2 Examples.model1 l).
Proof.
  intros _ Hrun Ha Hwf.
  apply run_success_inv in Hrun; destruct Hrun as (entries & Hd & He & ->).
  exists (csv_files_of w).
  assert (Hasc : Spec.ascending (csv_files_of w))
    by (rewrite csv_files_of_eq; apply sort_ascending).
  split; [apply read_manifest_success;
          [exact Ha | apply csv_files_of_char_ok, Hwf]|].
  split; [exact Hasc|].
  split; [intros x y; apply occurs_before_ascending;
          [exact Hasc | apply csv_files_of_NoDup, Hwf]|].
  split; [intros x y; apply ascending_occurs_before, Hasc|].
  intros H2 H1. apply ascending_occurs_before.
  - exact Hasc.
  - apply csv_files_of_In; [apply wf_listing_no_sep, Hwf|].
    split; [exact H2 | reflexivity].
  - apply csv_files_of_In; [apply wf_listing_no_sep, Hwf|].
    split; [exact H1 | reflexivity].
  - apply str_ltb_lex_lt; reflexivity.
Qed.

Ltac concrete_listing :=
  split;
  [ repeat (constructor; [simpl; intuition discriminate|]); constructor
  | repeat (constructor; [reflexivity|]); constructor ].

Lemma C4_witness :
  exists l,
    Spec.read_manifest
      (success_world (Examples.world_with Examples.case_dir) Examples.case_dir)
      = Some l
    /\ Spec.occurs_before Examples.model2 Examples.model1 l.
Proof.
  destruct (@C4_code_point_order
              (Examples.world_with Examples.case_dir)
              (success_world (Examples.world_with Examples.case_dir)
                             Examples.case_dir))
    as (l & Hread & _ & _ & _ & Hcase).
  - reflexivity.
  - apply run_success; [reflexivity | discriminate].
  - exact utf8_ascii_compatible.
  - concrete_listing.
  - exists l; split; [exact Hread|].
    apply Hcase; simpl; auto.
Defined.

(** C6. A second run in succession ends as the first did and leaves the
    same bytes in the manifest: that the first run wrote models.json
    changes nothing.  More generally, with the script in directories
    whose paths hold no character that glob expands, the bytes depend on
    the set of names ending in .csv only: a run on any well-formed
    directory with the same such names, listed in whatever order next to
    whatever other files, leaves the same bytes. *)
Theorem C6_idempotent (w w1 w2 : world) (r1 r2 : result bool) :
  update_models_json w = (r1, w1) ->
  update_models_json w1 = (r2, w2) ->
  (r2 = r1 /\ manifest_bytes w2 = manifest_bytes w1)
  /\ (forall v v1 : world,
        Glob.has_magic (script_dir w) = false ->
        Glob.has_magic (script_dir v) = false ->
        Spec.ascii_compatible (encoding w) ->
        Spec.ascii_compatible (encoding v) ->
        Spec.wf_listing (Os.listdir (models_dir w) w) ->
        Spec.wf_listing (Os.listdir (models_dir v) v) ->
        (forall name, Spec.has_suffix (lit ".csv") name ->
           (In name (Os.listdir (models_dir w) w)
            <-> In name (Os.listdir (models_dir v) v))) ->
        r1 = Ok true ->
        update_models_json v = (Ok true, v1) ->
        manifest_bytes v1 = manifest_bytes w1).
Proof.
  intros H1 H2. split.
  - pose proof (second_run w) as Hs; cbv zeta in Hs.
    rewrite H1 in Hs; cbn [fst snd] in Hs. rewrite H2 in Hs. exact Hs.
  - intros v v1 _ _ Ha Hav Hw Hv Hsame -> Hrun.
    apply run_success_inv in H1; destruct H1 as (entries & _ & _ & ->).
    apply run_success_inv in Hrun; destruct Hrun as (ventries & _ & _ & ->).
    rewrite !manifest_bytes_success, !written_bytes_ascii by assumption.
    rewrite (@csv_files_of_same_set w v Hw Hv Hsame). reflexivity.
Qed.

Lemma abc_same_csv_names (name : str) :
  Spec.has_suffix (lit ".csv") name ->
  (In name (map fst Examples.abc_dir)
   <-> In name (map fst Examples.abc_dir_changed)).
Proof.
  intros Hs. simpl. split.
  - intros [<-|[<-|[<-|[<-|[]]]]]; auto.
    exfalso; exact (suffix_csv_not_models_json Hs eq_refl).
  - intros [<-|[<-|[<-|[<-|[]]]]]; auto.
    exfalso. destruct Hs as [pre Hs].
    apply (f_equal (@rev char)) in Hs; rewrite rev_app_distr in Hs.
    discriminate Hs.
Qed.

Lemma C6_witness :
  let w := Examples.world_with Examples.abc_dir in
  let w1 := success_world w Examples.abc_dir in
  let w2 :=
    success_world w1
      (Assoc.set models_json (RegFile (written_bytes w)) Examples.abc_dir) in
  let v := Examples.world_with Examples.abc_dir_changed in
  let v1 := success_world v Examples.abc_dir_changed in
  manifest_bytes w2 = manifest_bytes w1
  /\ manifest_bytes v1 = manifest_bytes w1.
Proof.
  intros w w1 w2 v v1.
  destruct (@C6_idempotent w w1 w2 (Ok true) (Ok true)) as [[_ Hsame] Hany].
  - apply run_success; [reflexivity | discriminate].
  - apply run_success; [apply resolve_set_dir|].
    rewrite lookup_set_same; discriminate.
  - split; [exact Hsame|].
    apply (Hany v v1).
    + reflexivity.
    + reflexivity.
    + exact utf8_ascii_compatible.
    + exact utf8_ascii_compatible.
    + concrete_listing.
    + concrete_listing.
    + exact abc_same_csv_names.
    + reflexivity.
    + apply run_success; [reflexivity | discriminate].
Defined.

(** C7. A successful run never serialises the name models.json: it is
    not among the names written, whatever the directory holds, and on a
    well-formed listing the manifest parses to exactly those names. *)
Theorem C7_manifest_excludes_itself (w w' : world) :
  update_models_json w = (Ok true, w') ->
  ~ In models_json (csv_files_of w)
  /\ manifest_bytes w' = Some (written_bytes w)
  /\ (Spec.ascii_compatible (encoding w) ->
      Spec.wf_listing (Os.listdir (models_dir w) w) ->
      exists l, Spec.read_manifest w' = Some l /\ ~ In models_json l).
Proof.
  intros Hrun.
  apply run_success_inv in Hrun; destruct Hrun as (entries & Hd & He & ->).
  split; [apply csv_files_of_excludes|].
  split; [apply manifest_bytes_success|].
  intros Ha Hwf. exists (csv_files_of w). split.
  - apply read_manifest_success; [exact Ha | apply csv_files_of_char_ok, Hwf].
  - apply csv_files_of_excludes.
Qed.

Lemma C7_witness :
  exists l,
    Spec.read_manifest
      (success_world (Examples.world_with Examples.abc_dir) Examples.abc_dir)
      = Some l
    /\ ~ In models_json l.
Proof.
  destruct (@C7_manifest_excludes_itself
              (Examples.world_with Examples.abc_dir)
              (success_world (Examples.world_with Examples.abc_dir)
                             Examples.abc_dir))
    as (_ & _ & H).
  - apply run_success; [reflexivity | discriminate].
  - apply H; [exact utf8_ascii_compatible | concrete_listing].
Defined.




(** C9. The exclusion of models.json is redundant under the pattern: no
    name that matches [*.csv] is models.json, so filtering by the
    pattern and then removing models.json gives what filtering alone
    gives; the glob is that filter, and the loop of the script, run on
    the paths the glob makes of plain names, returns the same list. *)
Theorem C9_exclusion_redundant (names : list str) :
  Spec.filter_then_exclude names = Spec.filter_only names
  /\ Fnmatch.glob1 names (lit "*.csv") = Spec.filter_only names
  /\ (forall name, Fnmatch.fnmatchcase name (lit "*.csv") = true ->
                   name <> models_json)
  /\ (forall dirname,
        Forall no_sep names ->
        collect_csv_files
          (map (fun name => PosixPath.join dirname [name])
               (Fnmatch.glob1 names (lit "*.csv")))
        = Spec.filter_only names).
Proof.
  split; [apply exclude_redundant|].
  split; [apply glob1_csv|].
  split.
  - intros name H; apply suffix_csv_not_models_json, fnmatch_csv_suffix, H.
  - intros dirname Hn.
    rewrite glob1_csv, collect_csv_files_filter.
    rewrite map_basename_join by apply filter_only_no_sep, Hn.
    apply exclude_redundant.
Qed.

(** C10. A name that begins with a dot is never serialised, even when
    it ends in .csv: the glob does not select hidden names.  So a
    directory that holds .hidden.csv gets a manifest without it. *)
Theorem C10_hidden_omitted (w w' : world) (name : str) :
  update_models_json w = (Ok true, w') ->
  Spec.ascii_compatible (encoding w) ->
  Spec.wf_listing (Os.listdir (models_dir w) w) ->
  Fnmatch.ishidden name = true ->
  Spec.csv_match name = false
  /\ ~ In name (csv_files_of w)
  /\ exists l, Spec.read_manifest w' = Some l /\ ~ In name l.
Proof.
  intros Hrun Ha Hwf Hh.
  apply run_success_inv in Hrun; destruct Hrun as (entries & Hd & He & ->).
  assert (Hm : Spec.csv_match name = false)
    by (unfold Spec.csv_match; rewrite Hh; reflexivity).
  assert (Hout : ~ In name (csv_files_of w)).
  { intros Hin. apply csv_files_of_In in Hin; [|apply wf_listing_no_sep, Hwf].
    destruct Hin as [_ Hin]; congruence. }
  split; [exact Hm|]. split; [exact Hout|].
  exists (csv_files_of w). split; [|exact Hout].
  apply read_manifest_success; [exact Ha | apply csv_files_of_char_ok, Hwf].
Qed.

Lemma C10_witness :
  In Examples.hidden (map fst Examples.hidden_dir)
  /\ Spec.has_suffix (lit ".csv") Examples.hidden
  /\ exists l,
       Spec.read_manifest
         (success_world (Examples.world_with Examples.hidden_dir)
                        Examples.hidden_dir)
       = Some l
       /\ ~ In Examples.hidden l.
Proof.
  split; [left; reflexivity|].
  split; [exists (lit ".hidden"); reflexivity|].
  apply (@C10_hidden_omitted
           (Examples.world_with Examples.hidden_dir)
           (success_world (Examples.world_with Examples.hidden_dir)
                          Examples.hidden_dir)
           Examples.hidden).
  - apply run_success; [reflexivity | discriminate].
  - exact utf8_ascii_compatible.
  - concrete_listing.
  - reflexivity.
Defined.

(* ================================================================== *)
(** * Further properties of the script *)

(** ** Which names are selected *)

(** X1. With the script in a directory whose path holds no character
    that glob expands, and on a listing of plain names: a name is
    serialised exactly when the directory lists it, it does not begin
    with a dot and it ends in the lower-case suffix .csv; whether the
    entry is a regular file or a subdirectory plays no part. *)
Theorem X1_selected_names (w : world) (name : str) :
  Glob.has_magic (script_dir w) = false ->
  Forall no_sep (Os.listdir (models_dir w) w) ->
  (In name (csv_files_of w) <->
   In name (Os.listdir (models_dir w) w)
   /\ Fnmatch.ishidden name = false
   /\ Spec.has_suffix (lit ".csv") name).
Proof.
  intros _ H. rewrite csv_files_of_In by exact H.
  rewrite csv_match_spec. tauto.
Qed.

Lemma mixed_dir_no_sep :
  Forall no_sep
    (Os.listdir (models_dir (Examples.world_with MoreExamples.mixed_dir))
                (Examples.world_with MoreExamples.mixed_dir)).
Proof.
  repeat constructor; unfold no_sep; simpl; intuition discriminate.
Qed.

Lemma X1_witness :
  In (lit "archive.csv")
     (csv_files_of (Examples.world_with MoreExamples.mixed_dir))
  /\ ~ In (lit "DATA.CSV")
          (csv_files_of (Examples.world_with MoreExamples.mixed_dir))
  /\ ~ In (lit "table.csv.bak")
          (csv_files_of (Examples.world_with MoreExamples.mixed_dir)).
Proof.
  split; [|split].
  - apply (@X1_selected_names
             (Examples.world_with MoreExamples.mixed_dir) (lit "archive.csv")
             eq_refl mixed_dir_no_sep).
    split; [simpl; auto|]. split; [reflexivity|].
    exists (lit "archive"); reflexivity.
  - intros H.
    apply (@X1_selected_names
             (Examples.world_with MoreExamples.mixed_dir) (lit "DATA.CSV")
             eq_refl mixed_dir_no_sep) in H.
    destruct H as (_ & _ & pre & H).
    apply (f_equal (@rev char)) in H; rewrite rev_app_distr in H.
    discriminate H.
  - intros H.
    apply (@X1_selected_names
             (Examples.world_with MoreExamples.mixed_dir) (lit "table.csv.bak")
             eq_refl mixed_dir_no_sep) in H.
    destruct H as (_ & _ & pre & H).
    apply (f_equal (@rev char)) in H; rewrite rev_app_distr in H.
    discriminate H.
Defined.

(** X2. Sorting neither drops nor repeats a name: with the script in a
    directory whose path holds no character that glob expands, and on a
    listing of plain names, the serialised list is a rearrangement of the
    names the pattern selected, of the same length. *)
Theorem X2_sorted_rearrangement (w : world) :
  Glob.has_magic (script_dir w) = false ->
  Forall no_sep (Os.listdir (models_dir w) w) ->
  Permutation (csv_files_of w)
              (Spec.filter_only (Os.listdir (models_dir w) w))
  /\ List.length (csv_files_of w) =
     List.length (Spec.filter_only (Os.listdir (models_dir w) w)).
Proof.
  intros _ H. rewrite csv_files_of_plain by exact H.
  split; [apply sort_perm | apply Permutation_length, sort_perm].
Qed.

Lemma X2_witness :
  Permutation
    (csv_files_of (Examples.world_with MoreExamples.mixed_dir))
    (Spec.filter_only
       (Os.listdir (models_dir (Examples.world_with MoreExamples.mixed_dir))
                   (Examples.world_with MoreExamples.mixed_dir)))
  /\ List.length (csv_files_of (Examples.world_with MoreExamples.mixed_dir))
     = List.length
         (Spec.filter_only
            (Os.listdir
               (models_dir (Examples.world_with MoreExamples.mixed_dir))
               (Examples.world_with MoreExamples.mixed_dir))).
Proof.
  exact (@X2_sorted_rearrangement
           (Examples.world_with MoreExamples.mixed_dir)
           eq_refl mixed_dir_no_sep).
Defined.

(** ** Bare file names *)

Lemma skipn_rfind_succ_no_sep (p : str) :
  no_sep (skipn (PosixPath.rfind_succ PosixPath.sep p) p).
Proof.
  unfold no_sep; induction p as [|x p IH]; simpl; [tauto|].
  destruct (PosixPath.rfind_succ PosixPath.sep p) as [|k] eqn:E.
  - simpl in IH.
    destruct (N.eqb_spec x PosixPath.sep) as [->|Hx]; simpl; [exact IH|].
    intros [H|H]; [apply Hx; exact H | exact (IH H)].
  - exact IH.
Qed.

(** X3. Whatever paths the glob returns, the loop collects bare file
    names: no serialised name contains a slash. *)
Theorem X3_bare_file_names (w : world) (filepaths : list str) :
  Forall no_sep (collect_csv_files filepaths)
  /\ Forall no_sep (csv_files_of w).
Proof.
  assert (H : forall ps, Forall no_sep (collect_csv_files ps)).
  { intros ps. rewrite collect_csv_files_filter, Forall_forall.
    intros name Hin. apply filter_In in Hin; destruct Hin as [Hin _].
    apply in_map_iff in Hin; destruct Hin as (p & <- & _).
    apply skipn_rfind_succ_no_sep. }
  split; [apply H|].
  rewrite csv_files_of_eq, Forall_forall; intros name Hin.
  rewrite sort_In in Hin.
  exact (proj1 (Forall_forall _ _) (H _) _ Hin).
Qed.

(** X4. The base name of a directory joined with a plain name is that
    name again, whatever the directory: the loop gets back the names of
    the entries that the glob joined to the directory. *)
Theorem X4_basename_of_join (dirname name : str) (names : list str) :
  no_sep name -> Forall no_sep names ->
  PosixPath.basename (PosixPath.join dirname [name]) = name
  /\ map PosixPath.basename
         (map (fun n => PosixPath.join dirname [n]) names) = names.
Proof.
  intros Hn Hs. split; [apply basename_join, Hn | apply map_basename_join, Hs].
Qed.

Lemma X4_witness :
  PosixPath.basename
    (PosixPath.join (lit "/app/src/data/models/") [lit "a.csv"])
  = lit "a.csv"
  /\ map PosixPath.basename
         (map (fun n => PosixPath.join (lit "/app/src/data/models/") [n])
              [lit "a.csv"; lit "b.csv"])
     = [lit "a.csv"; lit "b.csv"].
Proof.
  apply X4_basename_of_join.
  - unfold no_sep; simpl; intuition discriminate.
  - repeat constructor; unfold no_sep; simpl; intuition discriminate.
Defined.

(** ** Runs that fail *)

(** X5. When the path of the models directory exists but is not a
    directory, the check for existence passes, the scanning line is
    printed and opening the manifest raises NotADirectoryError: nothing
    is written and the process exits with status 1.  With the script in
    a directory whose path holds no character that glob expands, the
    glob had found nothing. *)
Theorem X5_not_a_directory (w : world) :
  resolve (models_dir w) w = Some NonDir ->
  exists w',
    update_models_json w = (Raise NotADirectoryError, w')
    /\ (Glob.has_magic (script_dir w) = false -> csv_files_of w = [])
    /\ fs w' = fs w
    /\ stdout w' =
         stdout w ++ [lit "Scanning for CSV files in " ++ models_dir w
                        ++ lit "..."]
    /\ fst (main w) = 1%N.
Proof.
  intros Hd. exists (add_stdout w [scanning_line w]).
  assert (Hrun := run_not_a_directory w Hd).
  split; [exact Hrun|]. split.
  - intros _. rewrite csv_files_of_eq. unfold Os.listdir. rewrite Hd.
    reflexivity.
  - split; [reflexivity|]. split; [reflexivity|].
    unfold main. rewrite Hrun. reflexivity.
Qed.

Lemma X5_witness :
  exists w',
    update_models_json MoreExamples.world_not_dir
      = (Raise NotADirectoryError, w')
    /\ (Glob.has_magic (script_dir MoreExamples.world_not_dir) = false ->
        csv_files_of MoreExamples.world_not_dir = [])
    /\ fs w' = fs MoreExamples.world_not_dir
    /\ stdout w' =
         stdout MoreExamples.world_not_dir
           ++ [lit "Scanning for CSV files in "
                 ++ models_dir MoreExamples.world_not_dir ++ lit "..."]
    /\ fst (main MoreExamples.world_not_dir) = 1%N.
Proof. apply (X5_not_a_directory MoreExamples.world_not_dir); reflexivity. Defined.

(** X6. When a subdirectory called models.json sits in the models
    directory, opening the manifest for writing raises IsADirectoryError
    after the scanning line was printed: nothing is written, whatever CSV
    files the directory holds, and the process exits with status 1. *)
Theorem X6_manifest_is_a_directory (w : world) (entries : list (str * entry)) :
  resolve (models_dir w) w = Some (Directory entries) ->
  Assoc.lookup models_json entries = Some SubDir ->
  exists w',
    update_models_json w = (Raise IsADirectoryError, w')
    /\ fs w' = fs w
    /\ stdout w' =
         stdout w ++ [lit "Scanning for CSV files in " ++ models_dir w
                        ++ lit "..."]
    /\ fst (main w) = 1%N.
Proof.
  intros Hd He. exists (add_stdout w [scanning_line w]).
  assert (Hrun := run_is_a_directory w Hd He).
  split; [exact Hrun|].
  split; [reflexivity|]. split; [reflexivity|].
  unfold main. rewrite Hrun. reflexivity.
Qed.

Lemma X6_witness :
  exists w',
    update_models_json (Examples.world_with Examples.squatted_dir)
      = (Raise IsADirectoryError, w')
    /\ fs w' = fs (Examples.world_with Examples.squatted_dir)
    /\ stdout w' =
         stdout (Examples.world_with Examples.squatted_dir)
           ++ [lit "Scanning for CSV files in "
                 ++ models_dir (Examples.world_with Examples.squatted_dir)
                 ++ lit "..."]
    /\ fst (main (Examples.world_with Examples.squatted_dir)) = 1%N.
Proof.
  apply (@X6_manifest_is_a_directory
           (Examples.world_with Examples.squatted_dir) Examples.squatted_dir);
    reflexivity.
Defined.

Lemma manifest_bytes_not_found (w : world) :
  resolve (models_dir w) w = None -> manifest_bytes w = None.
Proof.
  intros Hd. unfold manifest_bytes, read_file, json_file, models_dir in *.
  rewrite split_join_models_dir by apply no_sep_models_json.
  rewrite Hd; reflexivity.
Qed.

(** X7. The value returned tells whether the manifest was written: a
    run that returns True has written it (with the bytes of the names
    listed in the models directory, when the path of the script holds no
    character that glob expands), and a run that returns False found no
    models directory, changed nothing in the filesystem and left no
    manifest.  A run in which opening the manifest raises
    NotADirectoryError or IsADirectoryError changed nothing either. *)
Theorem X7_return_value_reports_write (w w' : world) (r : result bool) :
  update_models_json w = (r, w') ->
  (r = Ok true ->
   exists bytes,
     manifest_bytes w' = Some bytes
     /\ (Glob.has_magic (script_dir w) = false -> bytes = written_bytes w))
  /\ (r = Ok false ->
      resolve (models_dir w) w = None
      /\ fs w' = fs w /\ manifest_bytes w' = None)
  /\ (r = Raise NotADirectoryError \/ r = Raise IsADirectoryError ->
      fs w' = fs w).
Proof.
  intros Hrun. pose proof (run_cases w) as Hc. rewrite Hrun in Hc.
  inversion Hc as [Hd|Hd|entries Hd He|entries Hd He]; subst.
  - split; [discriminate|]. split; [|reflexivity].
    intros _. split; [exact Hd|]. split; [reflexivity|].
    rewrite manifest_bytes_add_stdout. apply manifest_bytes_not_found, Hd.
  - split; [discriminate|]. split; [discriminate | reflexivity].
  - split; [discriminate|]. split; [discriminate | reflexivity].
  - split.
    + intros _. exists (written_bytes w).
      split; [apply manifest_bytes_success | reflexivity].
    + split; [discriminate | intros [H|H]; discriminate H].
Qed.

Lemma X7_witness :
  exists bytes,
    manifest_bytes
      (success_world (Examples.world_with Examples.abc_dir) Examples.abc_dir)
    = Some bytes
    /\ bytes = written_bytes (Examples.world_with Examples.abc_dir).
Proof.
  destruct (@X7_return_value_reports_write
              (Examples.world_with Examples.abc_dir)
              (success_world (Examples.world_with Examples.abc_dir)
                             Examples.abc_dir)
              (Ok true)) as (H & _ & _).
  - apply run_success; [reflexivity | discriminate].
  - destruct (H eq_refl) as (bytes & Hb & Hw).
    exists bytes; split; [exact Hb | apply Hw; reflexivity].
Defined.

(** ** What a successful run leaves alone *)




(** ** The report on the console *)

(** X9. A successful run adds to the console the scanning line, the
    line with the path of the manifest and the number of names, one line
    per serialised name in the order of the manifest, and the closing
    line; on a well-formed listing the names and their number are those
    the manifest parses to. *)
Theorem X9_console_report (w w' : world) :
  update_models_json w = (Ok true, w') ->
  stdout w' =
    stdout w
      ++ [lit "Scanning for CSV files in " ++ models_dir w ++ lit "...";
          lit "Generated " ++ json_file w ++ lit " with "
            ++ str_of_nat (List.length (csv_files_of w)) ++ lit " CSV files:"]
      ++ map (fun filename => lit "  - " ++ filename) (csv_files_of w)
      ++ [10%N :: lit "Models.json has been updated! Your web app will now automatically detect all CSV files."]
  /\ (Spec.ascii_compatible (encoding w) ->
      Spec.wf_listing (Os.listdir (models_dir w) w) ->
      Spec.read_manifest w' = Some (csv_files_of w)).
Proof.
  intros Hrun.
  apply run_success_inv in Hrun; destruct Hrun as (entries & Hd & He & ->).
  split; [reflexivity|].
  intros Ha Hwf.
  apply read_manifest_success; [exact Ha | apply csv_files_of_char_ok, Hwf].
Qed.

Lemma X9_witness :
  stdout (success_world (Examples.world_with Examples.abc_dir) Examples.abc_dir)
  = [lit "Scanning for CSV files in /app/src/data/models...";
     lit "Generated /app/src/data/models/models.json with 3 CSV files:";
     lit "  - a.csv"; lit "  - b.csv"; lit "  - c.csv";
     10%N :: lit "Models.json has been updated! Your web app will now automatically detect all CSV files."].
Proof.
  destruct (@X9_console_report
              (Examples.world_with Examples.abc_dir)
              (success_world (Examples.world_with Examples.abc_dir)
                             Examples.abc_dir)) as [Hout _].
  - apply run_success; [reflexivity | discriminate].
  - rewrite Hout. vm_compute. reflexivity.
Defined.

(** ** The bytes of the manifest *)

Lemma hex_digit_visible (d : N) : (d < 16)%N -> visible (Json.hex_digit d).
Proof.
  intros H; unfold visible, Json.hex_digit; destruct (N.ltb_spec d 10); lia.
Qed.

Lemma u_escape_visible (n : N) : Forall visible (Json.u_escape n).
Proof.
  unfold Json.u_escape, Json.hex4.
  repeat constructor; try (unfold visible; lia);
    apply hex_digit_visible, land15_lt.
Qed.

Ltac visible_literal := repeat constructor; unfold visible; lia.

Lemma escape_char_visible (c : char) : Forall visible (Json.escape_char c).
Proof.
  unfold Json.escape_char.
  repeat match goal with
         | |- context [if N.eqb c ?k then _ else _] =>
             destruct (N.eqb c k); [visible_literal|]
         end.
  destruct (N.leb 32 c && N.leb c 126) eqn:E.
  - apply andb_true_iff in E; destruct E as [E1 E2].
    apply N.leb_le in E1, E2. repeat constructor; assumption.
  - destruct (N.ltb c 65536).
    + apply u_escape_visible.
    + apply Forall_app; split; apply u_escape_visible.
Qed.

Lemma encode_basestring_ascii_visible (s : str) :
  Forall visible (Json.encode_basestring_ascii s).
Proof.
  unfold Json.encode_basestring_ascii.
  constructor; [unfold visible; lia|].
  apply Forall_app; split; [|visible_literal].
  induction s as [|c s IH]; simpl; [constructor|].
  apply Forall_app; split; [apply escape_char_visible | exact IH].
Qed.

Lemma visible_printable_or_lf (text : list N) :
  Forall visible text -> Forall printable_or_lf text.
Proof. apply Forall_impl; intros b H; right; exact H. Qed.

Lemma iterencode_list_printable (lst : list str) :
  Forall printable_or_lf (List.concat (Json.iterencode_list lst)).
Proof.
  assert (Hlf : printable_or_lf 10%N) by (left; reflexivity).
  assert (Hv : forall b, visible b -> printable_or_lf b)
    by (intros b H; right; exact H).
  destruct lst as [|value lst]; cbn [Json.iterencode_list List.concat].
  - cbn. constructor; [apply Hv; unfold visible; lia|].
    constructor; [apply Hv; unfold visible; lia | constructor].
  - unfold Json.newline_indent. cbn [app].
    constructor; [apply Hv; unfold visible; lia|].
    constructor; [exact Hlf|].
    constructor; [apply Hv; unfold visible; lia|].
    constructor; [apply Hv; unfold visible; lia|].
    apply Forall_app; split;
      [apply visible_printable_or_lf, encode_basestring_ascii_visible|].
    rewrite concat_app. apply Forall_app; split.
    + apply Forall_concat. unfold Json.rest_chunks.
      rewrite Forall_map, Forall_forall. intros v _.
      unfold Json.separator, Json.newline_indent. cbn [app].
      constructor; [apply Hv; unfold visible; lia|].
      constructor; [exact Hlf|].
      constructor; [apply Hv; unfold visible; lia|].
      constructor; [apply Hv; unfold visible; lia|].
      apply visible_printable_or_lf, encode_basestring_ascii_visible.
    + cbn. constructor; [exact Hlf|].
      constructor; [apply Hv; unfold visible; lia | constructor].
Qed.

(** X10. Whatever the names in the directory, a successful run under an
    ASCII-compatible encoding leaves a manifest of printable ASCII
    characters and line feeds only: every other character of a name is
    written as an escape. *)
Theorem X10_manifest_is_printable_ascii (w w' : world) :
  update_models_json w = (Ok true, w') ->
  Spec.ascii_compatible (encoding w) ->
  exists bytes,
    manifest_bytes w' = Some bytes /\ Forall printable_or_lf bytes.
Proof.
  intros Hrun Ha.
  apply run_success_inv in Hrun; destruct Hrun as (entries & Hd & He & ->).
  exists (written_bytes w). split; [apply manifest_bytes_success|].
  unfold written_bytes.
  rewrite flat_map_encode_ascii by (auto using iterencode_list_ascii).
  apply iterencode_list_printable.
Qed.

Lemma X10_witness :
  exists bytes,
    manifest_bytes
      (success_world (Examples.world_with Examples.fancy_dir)
                     Examples.fancy_dir) = Some bytes
    /\ Forall printable_or_lf bytes.
Proof.
  apply (@X10_manifest_is_printable_ascii
           (Examples.world_with Examples.fancy_dir)).
  - apply run_success; [reflexivity | discriminate].
  - exact utf8_ascii_compatible.
Defined.

(** X11. The serialisation tells lists of names apart: two lists of
    names made of code points in range, without high surrogates, that
    serialise to the same text are the same list. *)
Theorem X11_serialisation_injective (l1 l2 : list str) :
  Forall (Forall char_ok) l1 -> Forall (Forall char_ok) l2 ->
  List.concat (Json.iterencode_list l1) = List.concat (Json.iterencode_list l2) ->
  l1 = l2.
Proof.
  intros H1 H2 E.
  apply json_loads_dump in H1. apply json_loads_dump in H2.
  rewrite E in H1. congruence.
Qed.

(** Without the condition the texts can coincide: a surrogate pair
    written as two code points and the character it stands for. *)
Example surrogate_pair_collision :
  Json.encode_basestring_ascii [55357; 56832]%N
  = Json.encode_basestring_ascii [128512]%N.
Proof. vm_compute; reflexivity. Qed.

Lemma X11_witness : [lit "a.csv"; lit "b.csv"] = [lit "a.csv"; lit "b.csv"].
Proof.
  apply X11_serialisation_injective.
  - repeat constructor; unfold Spec.is_high; simpl; lia.
  - repeat constructor; unfold Spec.is_high; simpl; lia.
  - reflexivity.
Defined.

(** ** The paths of the script *)

Lemma join_step_after (d : str) (x : char) (b : str) :
  x <> PosixPath.sep -> startswith_char PosixPath.sep b = false ->
  PosixPath.join_step (d ++ [x]) b = (d ++ [x]) ++ PosixPath.sep :: b.
Proof.
  intros Hx Hb. unfold PosixPath.join_step. rewrite Hb.
  rewrite endswith_char_snoc.
  replace (is_empty (d ++ [x])) with false by (destruct d; reflexivity).
  apply N.eqb_neq in Hx; rewrite Hx. reflexivity.
Qed.

(** X12. The models directory is the directory of the script followed
    by src/data/models, with one separator put in between unless the
    directory of the script is empty or ends in one; the manifest and the
    pattern are models.json and [*.csv] right under it. *)
Theorem X12_paths (w : world) :
  models_dir w =
    (if is_empty (script_dir w) || endswith_char PosixPath.sep (script_dir w)
     then script_dir w
     else script_dir w ++ [PosixPath.sep])
      ++ lit "src/data/models"
  /\ json_file w = models_dir w ++ lit "/models.json"
  /\ csv_pattern w = models_dir w ++ lit "/*.csv".
Proof.
  split; [|split].
  - unfold models_dir, models_dir_of, PosixPath.join. cbn [fold_left].
    set (p := if is_empty (script_dir w)
                 || endswith_char PosixPath.sep (script_dir w)
              then script_dir w else script_dir w ++ [PosixPath.sep]).
    assert (H1 : PosixPath.join_step (script_dir w) (lit "src")
                 = (p ++ lit "sr") ++ [99%N]).
    { unfold PosixPath.join_step, p. cbn [startswith_char lit].
      change (startswith_char PosixPath.sep (lit "src")) with false.
      cbv iota.
      destruct (is_empty (script_dir w)
                || endswith_char PosixPath.sep (script_dir w));
        rewrite <- !app_assoc; reflexivity. }
    rewrite H1.
    rewrite join_step_after by (try discriminate; reflexivity).
    change ((p ++ lit "sr") ++ [99%N]) with ((p ++ lit "sr") ++ lit "c").
    replace (((p ++ lit "sr") ++ lit "c") ++ PosixPath.sep :: lit "data")
      with ((p ++ lit "src/dat") ++ [97%N])
      by (rewrite <- !app_assoc; reflexivity).
    rewrite join_step_after by (try discriminate; reflexivity).
    rewrite <- !app_assoc. reflexivity.
  - apply join_models_dir, no_sep_models_json.
  - apply join_models_dir, no_sep_lit_csv.
Qed.

(** ** One name on each line *)

Lemma line_feeds_app (a b : list N) :
  line_feeds (a ++ b) = line_feeds a + line_feeds b.
Proof. apply count_occ_app. Qed.

Lemma line_feeds_visible (text : list N) :
  Forall visible text -> line_feeds text = 0.
Proof.
  unfold line_feeds; induction 1 as [|b text Hb _ IH]; [reflexivity|].
  rewrite count_occ_cons_neq; [exact IH|].
  unfold visible in Hb; lia.
Qed.

Lemma line_feeds_rest_chunks (l : list str) :
  line_feeds (List.concat (Json.rest_chunks l)) = List.length l.
Proof.
  induction l as [|v l IH]; [reflexivity|].
  cbn [Json.rest_chunks map List.concat List.length].
  change (map (fun value => Json.separator ++ Json.encode_basestring_ascii value) l)
    with (Json.rest_chunks l).
  rewrite !line_feeds_app, IH.
  rewrite (line_feeds_visible (encode_basestring_ascii_visible v)).
  reflexivity.
Qed.

(** X13. The serialised text has the opening bracket, every name and the
    closing bracket on lines of their own: the names hold no raw line
    feed, so a list of n names, n at least one, is written with n + 1
    line feeds, and the empty list with none. *)
Theorem X13_one_name_per_line (lst : list str) :
  line_feeds (List.concat (Json.iterencode_list lst)) =
    match lst with
    | [] => 0
    | _ :: _ => S (List.length lst)
    end.
Proof.
  destruct lst as [|v l]; [reflexivity|].
  cbn [Json.iterencode_list List.concat List.length].
  rewrite concat_app, !line_feeds_app, line_feeds_rest_chunks.
  rewrite (line_feeds_visible (encode_basestring_ascii_visible v)).
  cbn. lia.
Qed.
